(** * PTO tracker: the ledger of [PTOManager] (src/main.py)

    A shallow embedding of the record-keeping core of the PTO tracker:
    date normalisation, the add / edit / remove operations on the
    in-memory document, and the JSON persistence of that document.

    Conventions of the embedding.
    - A Python [str] is a Rocq [string]; each character stands for one
      code point below 256.  On such text the regular-expression class
      [\d] used by [strptime] and by the JSON scanner is exactly the
      ASCII digits.
    - Python integers are unbounded: [Z] for hour counts, [N] for the
      components of a calendar date and for character codes.  The used
      hours and the hours of a request are integers.  The yearly allowance
      is an [int] (the default [0]) or a [float] ([set_yearly_pto_hours]
      is annotated [hours: float], and the desktop form passes the result
      of [askfloat]).
    - A Python [float] is an IEEE 754 binary64: sign, 53-bit mantissa and
      exponent, with exact rational arithmetic ([Q]) behind the correctly
      rounded operations.
    - A method that prints a message and returns [None] becomes a function
      returning the new state together with the message it printed.
    - The storage file is part of the state, so that "persisted" and "not
      persisted" can be told apart.
    - [datetime.strptime], [strftime], [json.dump] and [json.load] are
      library code; they are modelled after CPython's [_strptime.py] and
      [json] package, for the two date formats and the [indent=2] encoder
      the program uses, [float.__repr__] and [float(str)] after the
      correctly rounded conversions of [dtoa.c].
    - Two limits of the interpreter show in what [json.load] does and are
      part of the model: the recursion limit, as the number [depth] of
      nested containers the scanner may still enter when [json.load] is
      called, and the cap of 4300 digits on the conversion between [int]
      and [str].  [int.__repr__] and everything built on it ([json.dump])
      is modelled for integers within that cap. *)

From Stdlib Require Import ZArith NArith List String Ascii Bool Arith Lia.
From Stdlib Require Import Sorted Permutation OrderedTypeEx RelationClasses.
From Stdlib Require Import Decimal DecimalString DecimalPos DecimalZ.
From Stdlib Require Import QArith Qround Qpower Lqa Qfield.
Import ListNotations.

Close Scope Q_scope.

Local Open Scope string_scope.

(** ** Characters and decimal fields *)

Module Chars.
Local Open Scope N_scope.

Definition code (c : ascii) : N := N_of_ascii c.

(** [c] lies in the character range [lo-hi] of a regular expression. *)
Definition in_range (lo hi c : ascii) : bool :=
  (code lo <=? code c)%N && (code c <=? code hi)%N.

(** The class [\d] on code points below 256. *)
Definition is_digit (c : ascii) : bool := in_range "0" "9" c.

Definition digit_val (c : ascii) : N := (code c - 48)%N.

Definition digit_char (n : N) : ascii := ascii_of_N (48 + n)%N.

(** Two-digit, zero-padded rendering, as [%m], [%d] and [%y] print. *)
Definition pad2 (n : N) : string :=
  String (digit_char ((n / 10) mod 10)%N) (String (digit_char (n mod 10)%N) "").

(** Four-digit, zero-padded rendering, as [%Y] prints a year. *)
Definition pad4 (n : N) : string :=
  String (digit_char ((n / 1000) mod 10)%N)
    (String (digit_char ((n / 100) mod 10)%N) (pad2 n)).

End Chars.

(** ** Calendar dates and [datetime.strptime] / [strftime] *)

Module Dates.
Import Chars.
Local Open Scope N_scope.

(** The date part of a [datetime] object. *)
Record datetime := mkdatetime { year : N; month : N; day : N }.

Definition is_leap (y : N) : bool :=
  ((y mod 4 =? 0) && negb (y mod 100 =? 0) || (y mod 400 =? 0))%N.

Definition days_in_month (y m : N) : N :=
  match m with
  | 2 => if is_leap y then 29 else 28
  | 4 | 6 | 9 | 11 => 30
  | _ => 31
  end%N.

(** [datetime.MAXYEAR] *)
Definition MAXYEAR : N := 9999.

(** The range check of the [datetime.date] constructor; [strptime]
    raises [ValueError] when it fails. *)
Definition valid_date (y m d : N) : bool :=
  ((1 <=? y) && (y <=? MAXYEAR) && (1 <=? m) && (m <=? 12)
   && (1 <=? d) && (d <=? days_in_month y m))%N.

(** First alternative that matches wins, as in a backtracking regular
    expression. *)
Definition orelse {A} (x y : option A) : option A :=
  match x with Some _ => x | None => y end.

Section Regex.
(** Each directive is a matcher in continuation-passing style: it hands
    the integer value of the text it matched and the rest of the input
    to the continuation [k], and falls through to its next alternative
    when [k] fails. *)
Context {R : Type}.

(** [%m] : [(1[0-2]|0[1-9]|[1-9])] *)
Definition re_m (k : N -> string -> option R) (s : string) : option R :=
  orelse
    (match s with
     | String "1" (String c r) =>
         if in_range "0" "2" c then k (10 + digit_val c) r else None
     | _ => None
     end)
    (orelse
       (match s with
        | String "0" (String c r) =>
            if in_range "1" "9" c then k (digit_val c) r else None
        | _ => None
        end)
       (match s with
        | String c r => if in_range "1" "9" c then k (digit_val c) r else None
        | _ => None
        end)).

(** [%d] : [(3[0-1]|[1-2]\d|0[1-9]|[1-9]| [1-9])] *)
Definition re_d (k : N -> string -> option R) (s : string) : option R :=
  orelse
    (match s with
     | String "3" (String c r) =>
         if in_range "0" "1" c then k (30 + digit_val c) r else None
     | _ => None
     end)
    (orelse
       (match s with
        | String c1 (String c2 r) =>
            if in_range "1" "2" c1 && is_digit c2
            then k (10 * digit_val c1 + digit_val c2) r else None
        | _ => None
        end)
       (orelse
          (match s with
           | String "0" (String c r) =>
               if in_range "1" "9" c then k (digit_val c) r else None
           | _ => None
           end)
          (orelse
             (match s with
              | String c r =>
                  if in_range "1" "9" c then k (digit_val c) r else None
              | _ => None
              end)
             (match s with
              | String " " (String c r) =>
                  if in_range "1" "9" c then k (digit_val c) r else None
              | _ => None
              end)))).

(** [%y] : [(\d\d)] *)
Definition re_y (k : N -> string -> option R) (s : string) : option R :=
  match s with
  | String c1 (String c2 r) =>
      if is_digit c1 && is_digit c2
      then k (10 * digit_val c1 + digit_val c2) r else None
  | _ => None
  end.

(** [%Y] : [(\d\d\d\d)] *)
Definition re_Y (k : N -> string -> option R) (s : string) : option R :=
  match s with
  | String c1 (String c2 (String c3 (String c4 r))) =>
      if is_digit c1 && is_digit c2 && is_digit c3 && is_digit c4
      then k (1000 * digit_val c1 + 100 * digit_val c2
              + 10 * digit_val c3 + digit_val c4) r
      else None
  | _ => None
  end.

(** The literal [-] of the two formats. *)
Definition re_dash (k : string -> option R) (s : string) : option R :=
  match s with
  | String "-" r => k r
  | _ => None
  end.
End Regex.

(** Century of a [%y] year: 00..68 are 20xx, 69..99 are 19xx. *)
Definition full_year (yy : N) : N :=
  if (yy <=? 68)%N then (yy + 2000)%N else (yy + 1900)%N.

(** What [strptime] does once the regular expression has matched: text
    left over after the match and an out-of-range date are both
    [ValueError]s. *)
Definition finish (y m d : N) (rest : string) : option datetime :=
  match rest with
  | "" => if valid_date y m d then Some (mkdatetime y m d) else None
  | _ => None
  end.

(** [datetime.strptime(s, "%m-%d-%y")]; [None] stands for [ValueError]. *)
Definition strptime_mdy (s : string) : option datetime :=
  match
    re_m (fun m => re_dash (fun s1 =>
    re_d (fun d => re_dash (fun s2 =>
    re_y (fun yy rest => Some (full_year yy, m, d, rest)) s2)) s1)) s
  with
  | Some (y, m, d, rest) => finish y m d rest
  | None => None
  end.

(** [datetime.strptime(s, "%Y-%m-%d")]. *)
Definition strptime_Ymd (s : string) : option datetime :=
  match
    re_Y (fun y => re_dash (fun s1 =>
    re_m (fun m => re_dash (fun s2 =>
    re_d (fun d rest => Some (y, m, d, rest)) s2)) s1)) s
  with
  | Some (y, m, d, rest) => finish y m d rest
  | None => None
  end.

(** [strftime("%Y-%m-%d")] and [strftime("%m-%d-%y")]. *)
Definition strftime_Ymd (t : datetime) : string :=
  pad4 (year t) ++ "-" ++ pad2 (month t) ++ "-" ++ pad2 (day t).

Definition strftime_mdy (t : datetime) : string :=
  pad2 (month t) ++ "-" ++ pad2 (day t) ++ "-" ++ pad2 (year t mod 100).

(** [PTOManager._validate_date] *)
Definition _validate_date (date_str : string) : option string :=
  match strptime_mdy date_str with
  | Some date_obj => Some (strftime_Ymd date_obj)
  | None => None
  end.

(** [PTOManager._format_date_for_display] *)
Definition _format_date_for_display (iso_date : string) : string :=
  match strptime_Ymd iso_date with
  | Some date_obj => strftime_mdy date_obj
  | None => iso_date
  end.

(** Calendar order: by year, then month, then day. *)
Definition date_compare (t1 t2 : datetime) : comparison :=
  match N.compare (year t1) (year t2) with
  | Eq =>
      match N.compare (month t1) (month t2) with
      | Eq => N.compare (day t1) (day t2)
      | c => c
      end
  | c => c
  end.

(** The dates a two-digit year can denote: a valid calendar date of the
    years 1969 to 2068. *)
Definition two_digit_year_date (t : datetime) : Prop :=
  valid_date (year t) (month t) (day t) = true
  /\ (1969 <= year t <= 2068)%N.




End Dates.

(** ** Python's [float]: IEEE 754 binary64 *)

Module Binary64.
Import Chars.

(** A finite float is [(-1)^negative * m * 2^e]; the two zeros are
    [Finite false 0 (-1074)] and [Finite true 0 (-1074)]. *)
Inductive float :=
| Finite (negative : bool) (m e : Z)
| Infinite (negative : bool)
| NaN.

(** The values a C double takes: 53 bits of mantissa, normalised unless
    the exponent is the least one. *)
Definition is_binary64 (x : float) : bool :=
  match x with
  | Finite _ m e =>
      (0 <=? m)%Z && (m <? 2 ^ 53)%Z && (-1074 <=? e)%Z && (e <=? 971)%Z
      && ((2 ^ 52 <=? m)%Z || (e =? -1074)%Z)
  | Infinite _ | NaN => true
  end.

Definition pow2 (e : Z) : Q := (2 ^ e)%Q.
Definition pow10 (k : Z) : Q := (10 ^ k)%Q.

(** [m * 2^e] *)
Definition magnitude (m e : Z) : Q := (inject_Z m * pow2 e)%Q.

(** Rounding to the nearest integer, ties to the even one. *)
Definition round_half_even (q : Q) : Z :=
  let f := Qfloor q in
  match (q - inject_Z f ?= 1 # 2)%Q with
  | Lt => f
  | Gt => (f + 1)%Z
  | Eq => if Z.even f then f else (f + 1)%Z
  end.

(** The [z] with [2^z <= q < 2^(z+1)], for [0 < q]. *)
Definition ilog2 (q : Q) : Z :=
  let k := (Z.log2 (Qnum q) - Z.log2 (Zpos (Qden q)))%Z in
  if Qle_bool (pow2 k) q then k else (k - 1)%Z.

(** Correct rounding of a non-negative rational to 53 bits (round to
    nearest, ties to even), with gradual underflow: mantissa and exponent.
    An exponent above 971 stands for overflow. *)
Definition round_magnitude (q : Q) : Z * Z :=
  let e := if Qle_bool (pow2 (-1022)) q then (ilog2 q - 52)%Z else (-1074)%Z in
  let m := round_half_even (q * pow2 (- e))%Q in
  if (m =? 2 ^ 53)%Z then ((2 ^ 52)%Z, (e + 1)%Z) else (m, e).

(** The float nearest to [(-1)^negative * q], for [0 <= q]. *)
Definition round (negative : bool) (q : Q) : float :=
  let (m, e) := round_magnitude q in
  if (971 <? e)%Z then Infinite negative else Finite negative m e.

(** *** [float(s)] on the text [NUMBER_RE] matched *)

(** The number a string of digits denotes. *)
Fixpoint digits_value_from (acc : Z) (s : string) : Z :=
  match s with
  | "" => acc
  | String c r => digits_value_from (10 * acc + Z.of_N (digit_val c)) r
  end.

Definition digits_value (s : string) : Z := digits_value_from 0 s.

(** [s[:i]] and [s[i:]] *)
Fixpoint take (i : nat) (s : string) : string :=
  match i, s with
  | S i', String c r => String c (take i' r)
  | _, _ => ""
  end.

Fixpoint drop (i : nat) (s : string) : string :=
  match i, s with
  | S i', String _ r => drop i' r
  | _, _ => s
  end.

(** A leading minus sign and what follows it. *)
Definition split_sign (s : string) : bool * string :=
  match s with
  | String "-" r => (true, r)
  | _ => (false, s)
  end.

(** The integer a string of digits with an optional sign denotes. *)
Definition signed_value (s : string) : Z :=
  match s with
  | String "-" r => (- digits_value r)%Z
  | String "+" r => digits_value r
  | _ => digits_value s
  end.

(** [float(integer + frac + exp)], given the three groups of [NUMBER_RE]:
    [integer] is an optional minus sign and digits, [frac] is empty or a
    dot and digits, [exp] is empty or [e], an optional sign and digits.
    [_Py_dg_strtod] rounds correctly and overflows to infinity. *)
Definition float_of_literal (integer frac exp : string) : float :=
  let (negative, int_digits) := split_sign integer in
  let frac_digits := drop 1 frac in
  let exponent := signed_value (drop 1 exp) in
  round negative
    (inject_Z (digits_value (int_digits ++ frac_digits))
     * pow10 (exponent - Z.of_nat (String.length frac_digits)))%Q.

(** *** [float.__repr__] *)

(** The [p] with [10^(p-1) <= q < 10^p], searched downwards from [p]. *)
Fixpoint decimal_point_from (q : Q) (p : Z) (fuel : nat) : Z :=
  match fuel with
  | O => p
  | S f =>
      if Qle_bool (pow10 (p - 1)) q then p
      else decimal_point_from q (p - 1)%Z f
  end.

(** The magnitudes of binary64 lie between [10^(-324)] and [10^309]. *)
Definition decimal_point (q : Q) : Z := decimal_point_from q 309 633.

(** [c * 10^k] is read back as [m * 2^e]. *)
Definition reads_back (m e c k : Z) : bool :=
  let (m', e') := round_magnitude (inject_Z c * pow10 k)%Q in
  (m' =? m)%Z && (e' =? e)%Z.

(** Mode 0 of [_Py_dg_dtoa]: the shortest string of digits that is read
    back as the same float and, among those of that length, the one
    nearest to it.  With [n] digits the candidates are the two [n]-digit
    decimals around [m * 2^e]; 17 digits always suffice.  The result is
    the number of digits, the digits as an integer and its decimal
    exponent. *)
Fixpoint shortest (m e p : Z) (n : positive) (fuel : nat) : positive * Z * Z :=
  let k := (p - Zpos n)%Z in
  let t := (magnitude m e * pow10 (- k))%Q in
  let lo := Qfloor t in
  let hi := (lo + 1)%Z in
  let up := if (hi =? 10 ^ Zpos n)%Z then (1%positive, 1%Z, p) else (n, hi, k) in
  let nearest := if (round_half_even t =? lo)%Z then (n, lo, k) else up in
  match reads_back m e lo k, reads_back m e hi k with
  | true, true => nearest
  | true, false => (n, lo, k)
  | false, true => up
  | false, false =>
      match fuel with
      | O => nearest
      | S f => shortest m e p (n + 1)%positive f
      end
  end.

Definition shortest_digits (m e : Z) : positive * Z * Z :=
  shortest m e (decimal_point (magnitude m e)) 1 16.

(** The last [n] decimal digits of [c]. *)
Fixpoint digits_of (n : nat) (c : Z) : string :=
  match n with
  | O => ""
  | S n' => digits_of n' (c / 10) ++ String (digit_char (Z.to_N (c mod 10))) ""
  end.

Fixpoint zeros (n : nat) : string :=
  match n with
  | O => ""
  | S n' => String "0" (zeros n')
  end.

(** [format_float_short] for [repr]: the digits [ds] with the decimal
    point after the first [decpt] of them; exponent notation when
    [decpt <= -4] or [decpt > 16], and [.0] added to a whole number. *)
Definition format_float_short (ds : string) (decpt : Z) : string :=
  let n := Z.of_nat (String.length ds) in
  if ((decpt <=? -4) || (16 <? decpt))%Z then
    let e := (decpt - 1)%Z in
    let a := Z.abs e in
    match ds with
    | String c r =>
        String c (match r with "" => "" | _ => String "." r end)
        ++ "e" ++ (if (e <? 0)%Z then "-" else "+")
        ++ digits_of (if (a <? 100)%Z then 2 else 3) a
    | "" => ""
    end
  else if (decpt <=? 0)%Z then "0." ++ zeros (Z.to_nat (- decpt)) ++ ds
  else if (decpt <? n)%Z
       then take (Z.to_nat decpt) ds ++ "." ++ drop (Z.to_nat decpt) ds
       else ds ++ zeros (Z.to_nat (decpt - n)) ++ ".0".

(** [float.__repr__] *)
Definition float_repr (x : float) : string :=
  match x with
  | NaN => "nan"
  | Infinite negative => if negative then "-inf" else "inf"
  | Finite negative m e =>
      (if negative then "-" else "")
      ++ (if (m =? 0)%Z then "0.0"
          else let '(n, c, k) := shortest_digits m e in
               format_float_short (digits_of (Pos.to_nat n) c) (Zpos n + k))
  end.

(** *** Arithmetic and comparison *)

(** [float(z)] for an [int]: [None] stands for [OverflowError]. *)
Definition float_of_int (z : Z) : option float :=
  match round (z <? 0)%Z (inject_Z (Z.abs z)) with
  | Infinite _ => None
  | x => Some x
  end.

(** The exact value of a finite float. *)
Definition value (negative : bool) (m e : Z) : Q :=
  if negative then (- magnitude m e)%Q else magnitude m e.

(** [x - y] on floats. *)
Definition float_sub (x y : float) : float :=
  match x, y with
  | NaN, _ | _, NaN => NaN
  | Infinite s, Infinite s' => if Bool.eqb s s' then NaN else Infinite s
  | Infinite s, Finite _ _ _ => Infinite s
  | Finite _ _ _, Infinite s => Infinite (negb s)
  | Finite s m e, Finite s' m' e' =>
      let d := (value s m e - value s' m' e')%Q in
      match (d ?= 0)%Q with
      | Eq => Finite (s && negb s') 0 (-1074)
      | Lt => round true (- d)%Q
      | Gt => round false d
      end
  end.



(** *** Predicates of the proofs *)



End Binary64.

(** ** JSON documents and [json.dump]

    The in-memory document [self.data] is a Python dict; on disk it is the
    text [json.dump(self.data, f, indent=2)] writes. *)

Module Json.
Import Chars Binary64.

(** Python values that [json] reads and writes.  A dict keeps its
    insertion order, so it is an association list. *)
#[local] Unset Elimination Schemes.
Inductive json :=
| JNull
| JBool (b : bool)
| JInt (z : Z)
| JFloat (x : float)
| JStr (s : string)
| JArr (items : list json)
| JObj (pairs : list (string * json)).
#[local] Set Elimination Schemes.

(** [int.__repr__], for an integer within the cap on digits. *)
Definition intstr (z : Z) : string :=
  DecimalString.NilZero.string_of_int (Z.to_int z).

(** [sys.int_info.default_max_str_digits]: [int(str)] and [str(int)]
    raise [ValueError] beyond this number of digits. *)
Definition int_max_str_digits : Z := 4300.

(** The number of decimal digits of [z]. *)
Definition int_digits (z : Z) : Z :=
  Z.of_nat (String.length (intstr (Z.abs z))).

Definition within_digit_limit (z : Z) : bool :=
  (int_digits z <=? int_max_str_digits)%Z.

(** [floatstr] of [_make_iterencode], with [allow_nan=True]. *)
Definition floatstr (x : float) : string :=
  match x with
  | NaN => "NaN"
  | Infinite false => "Infinity"
  | Infinite true => "-Infinity"
  | Finite _ _ _ => float_repr x
  end.

Definition hex_char (n : N) : ascii :=
  if (n <? 10)%N then ascii_of_N (48 + n) else ascii_of_N (87 + n).

(** ['\\u{0:04x}'.format(n)] for a code point below 256. *)
Definition escape_u (c : ascii) : string :=
  String "\" (String "u" (String "0" (String "0"
    (String (hex_char (code c / 16)%N) (String (hex_char (code c mod 16)%N) ""))))).

(** The replacement [py_encode_basestring_ascii] makes for one character:
    [ESCAPE_ASCII] matches the backslash, the double quote and everything
    outside [' '..'~']; [ESCAPE_DCT] has short forms for some of them. *)
Definition escape_char (c : ascii) : string :=
  if Ascii.eqb c "\" then String "\" (String "\" "")
  else if Ascii.eqb c "034" then String "\" (String "034" "")
  else if in_range " " "~" c then String c ""
  else match code c with
       | 8%N => String "\" (String "b" "")
       | 12%N => String "\" (String "f" "")
       | 10%N => String "\" (String "n" "")
       | 13%N => String "\" (String "r" "")
       | 9%N => String "\" (String "t" "")
       | _ => escape_u c
       end.

Fixpoint escape_ascii (s : string) : string :=
  match s with
  | "" => ""
  | String c r => escape_char c ++ escape_ascii r
  end.

(** [encode_basestring_ascii] *)
Definition encode_basestring_ascii (s : string) : string :=
  String "034" (escape_ascii s ++ String "034" "").

Fixpoint spaces (n : nat) : string :=
  match n with
  | O => ""
  | S k => String " " (spaces k)
  end.

(** ['\n' + _indent * _current_indent_level] with [indent=2]. *)
Definition newline_indent (level : nat) : string :=
  String "010" (spaces (2 * level)).

(** [_iterencode] of [_make_iterencode], with [indent=2] and the
    separators [","] and [": "], all chunks concatenated. *)
Fixpoint iterencode (o : json) (level : nat) {struct o} : string :=
  match o with
  | JStr s => encode_basestring_ascii s
  | JNull => "null"
  | JBool true => "true"
  | JBool false => "false"
  | JInt z => intstr z
  | JFloat x => floatstr x
  | JArr [] => "[]"
  | JArr (v :: vs) =>
      "[" ++ newline_indent (S level) ++ iterencode v (S level)
      ++ (fix rest (l : list json) : string :=
            match l with
            | [] => ""
            | x :: l' =>
                "," ++ newline_indent (S level) ++ iterencode x (S level)
                ++ rest l'
            end) vs
      ++ newline_indent level ++ "]"
  | JObj [] => "{}"
  | JObj ((k, v) :: kvs) =>
      "{" ++ newline_indent (S level)
      ++ encode_basestring_ascii k ++ ": " ++ iterencode v (S level)
      ++ (fix rest (l : list (string * json)) : string :=
            match l with
            | [] => ""
            | (k', x) :: l' =>
                "," ++ newline_indent (S level)
                ++ encode_basestring_ascii k' ++ ": "
                ++ iterencode x (S level) ++ rest l'
            end) kvs
      ++ newline_indent level ++ "}"
  end.

(** [json.dump(obj, f, indent=2)]: the text written to [f]. *)
Definition dump (obj : json) : string := iterencode obj 0.


(** What may follow a number in the encoder's output: the end of the text
    or a character that continues neither the digits, nor a fraction, nor an
    exponent. *)
Definition ends_number (rest : string) : Prop :=
  match rest with
  | "" => True
  | String c _ =>
      is_digit c = false /\ c <> "."%char /\ c <> "e"%char /\ c <> "E"%char
  end.

(** *** [json.load]

    The scanner works on the text that is left to read.  A result is the
    value and the rest of the text, a [JSONDecodeError], another exception
    that leaves [json.load], or one of two abstentions of the model: an
    escape that denotes a code point above 255, and exhausted fuel (which
    [loads_fuel] rules out). *)

(** The exceptions of [json.load] that are not [JSONDecodeError]s. *)
Inductive exn :=
| RecursionError          (* containers nested deeper than the interpreter allows *)
| ValueError.             (* an integer literal of more than 4300 digits *)

Inductive result (A : Type) :=
| Ok (a : A)
| DecodeError
| Raises (e : exn)
| NotLatin1
| OutOfFuel.
Arguments Ok {A} a.
Arguments DecodeError {A}.
Arguments Raises {A} e.
Arguments NotLatin1 {A}.
Arguments OutOfFuel {A}.

Definition bind {A B} (r : result A) (k : A -> result B) : result B :=
  match r with
  | Ok a => k a
  | DecodeError => DecodeError
  | Raises e => Raises e
  | NotLatin1 => NotLatin1
  | OutOfFuel => OutOfFuel
  end.

Notation "' p <- r ;; k" := (bind r (fun p => k))
  (at level 60, p pattern, r at next level, right associativity).

(** [WHITESPACE_STR] *)
Definition is_ws (c : ascii) : bool :=
  match code c with
  | 32%N | 9%N | 10%N | 13%N => true
  | _ => false
  end.

(** [WHITESPACE.match(s, end).end()] *)
Fixpoint skip_ws (s : string) : string :=
  match s with
  | String c r => if is_ws c then skip_ws r else s
  | "" => ""
  end.

Definition hex_val (c : ascii) : option N :=
  if in_range "0" "9" c then Some (code c - 48)%N
  else if in_range "a" "f" c then Some (code c - 87)%N
  else if in_range "A" "F" c then Some (code c - 55)%N
  else None.

(** [BACKSLASH] *)
Definition backslash (esc : ascii) : option ascii :=
  match code esc with
  | 34%N => Some "034"%char
  | 92%N => Some "\"%char
  | 47%N => Some "/"%char
  | 98%N => Some "008"%char
  | 102%N => Some "012"%char
  | 110%N => Some "010"%char
  | 114%N => Some "013"%char
  | 116%N => Some "009"%char
  | _ => None
  end.

(** [scanstring(s, end, strict=True)], on the text after the opening
    quote: the decoded string and the text after the closing quote. *)
Fixpoint scanstring (s : string) : result (string * string) :=
  match s with
  | "" => DecodeError
  | String c r =>
      if Ascii.eqb c "034" then Ok ("", r)
      else if Ascii.eqb c "\" then
        match r with
        | "" => DecodeError
        | String "u" (String h1 (String h2 (String h3 (String h4 r')))) =>
            match hex_val h1, hex_val h2, hex_val h3, hex_val h4 with
            | Some a, Some b, Some c', Some d =>
                if ((a =? 0) && (b =? 0))%N
                then ' (str, rest) <- scanstring r' ;;
                     Ok (String (ascii_of_N (16 * c' + d)) str, rest)
                else NotLatin1
            | _, _, _, _ => DecodeError
            end
        | String "u" _ => DecodeError
        | String esc r' =>
            match backslash esc with
            | Some ch =>
                ' (str, rest) <- scanstring r' ;; Ok (String ch str, rest)
            | None => DecodeError
            end
        end
      else if (code c <? 32)%N then DecodeError
      else ' (str, rest) <- scanstring r ;; Ok (String c str, rest)
  end.

(** The longest prefix of digits, [\d*], and what follows it. *)
Fixpoint scan_digits (s : string) : string * string :=
  match s with
  | String c r =>
      if is_digit c
      then let (ds, rest) := scan_digits r in (String c ds, rest)
      else ("", s)
  | "" => ("", "")
  end.

(** The three groups of [NUMBER_RE]: an optional minus sign and then
    either [0] or a digit [1-9] with the digits after it; an optional
    fraction, a dot and at least one digit; an optional exponent, [e] or
    [E], an optional sign and at least one digit. *)
Definition match_integer (s : string) : option (string * string) :=
  let (sign, s1) := match s with
                    | String "-" r => ("-", r)
                    | _ => ("", s)
                    end in
  match s1 with
  | String c r =>
      if Ascii.eqb c "0" then Some (sign ++ "0", r)
      else if in_range "1" "9" c
           then let (ds, rest) := scan_digits r in
                Some (sign ++ String c ds, rest)
           else None
  | "" => None
  end.

Definition match_frac (s : string) : string * string :=
  match s with
  | String "." (String c r) =>
      if is_digit c
      then let (ds, rest) := scan_digits r in
           (String "." (String c ds), rest)
      else ("", s)
  | _ => ("", s)
  end.

Definition match_exp (s : string) : string * string :=
  match s with
  | String e r =>
      if Ascii.eqb e "e" || Ascii.eqb e "E" then
        let (sign, r1) := match r with
                          | String "-" r' => ("-", r')
                          | String "+" r' => ("+", r')
                          | _ => ("", r)
                          end in
        match r1 with
        | String c r2 =>
            if is_digit c
            then let (ds, rest) := scan_digits r2 in
                 (String e (sign ++ String c ds), rest)
            else ("", s)
        | "" => ("", s)
        end
      else ("", s)
  | "" => ("", s)
  end.

(** [int(integer)] on the text of the first group, within the cap on
    digits. *)
Definition parse_int (integer : string) : Z :=
  match DecimalString.NilZero.int_of_string integer with
  | Some d => Z.of_int d
  | None => 0
  end.

(** The digits of the first group, without its sign. *)
Definition digit_count (integer : string) : Z :=
  Z.of_nat (String.length (match integer with
                           | String "-" r => r
                           | _ => integer
                           end)).

(** [_match_number]: [None] when [NUMBER_RE] does not match.  With a
    fraction or an exponent the text is a float; otherwise it is an
    integer, and [int] raises [ValueError] beyond the cap on digits. *)
Definition match_number (s : string) : option (result (json * string)) :=
  match match_integer s with
  | Some (integer, s1) =>
      let (frac, s2) := match_frac s1 in
      let (exp, s3) := match_exp s2 in
      match frac, exp with
      | "", "" =>
          if (int_max_str_digits <? digit_count integer)%Z
          then Some (Raises ValueError)
          else Some (Ok (JInt (parse_int integer), s3))
      | _, _ => Some (Ok (JFloat (float_of_literal integer frac exp), s3))
      end
  | None => None
  end.

(** [s[idx:idx + len(lit)] == lit]: the text after [lit], if [s] starts
    with it. *)
Fixpoint strip_prefix (lit s : string) : option string :=
  match lit, s with
  | "", _ => Some s
  | String a lit', String b s' =>
      if Ascii.eqb a b then strip_prefix lit' s' else None
  | _, "" => None
  end.

(** [dict(pairs)]: a repeated key keeps its first position and takes
    the last value. *)
Fixpoint dict_set (k : string) (v : json) (d : list (string * json))
  : list (string * json) :=
  match d with
  | [] => [(k, v)]
  | (k', v') :: d' =>
      if (k' =? k)%string then (k, v) :: d' else (k', v') :: dict_set k v d'
  end.

Definition dict_of_pairs (pairs : list (string * json)) : list (string * json) :=
  fold_left (fun d kv => dict_set (fst kv) (snd kv) d) pairs [].

(** [_scan_once], with the loops of [JSONObject] and [JSONArray].  The
    index arithmetic of the source around whitespace amounts to
    [skip_ws] at each of these places.  [object_loop] starts after the
    opening quote of a key, [array_loop] at a value.

    The scanner enters a recursive call ([Py_EnterRecursiveCall]) at every
    opening brace and bracket: [depth] is the number of containers it may
    still enter inside one another, and [RecursionError] is raised at the
    container that would exceed it. *)
Fixpoint scan_once (fuel : nat) (depth : nat) (s : string) {struct fuel}
  : result (json * string) :=
  match fuel with
  | O => OutOfFuel
  | S n =>
      match s with
      | "" => DecodeError
      | String c rest =>
          if Ascii.eqb c "034" then
            ' (str, r) <- scanstring rest ;; Ok (JStr str, r)
          else if Ascii.eqb c "{" then
            match depth with
            | O => Raises RecursionError
            | S inner =>
                match skip_ws rest with
                | String "}" r => Ok (JObj [], r)
                | String "034" r => object_loop n inner r []
                | _ => DecodeError
                end
            end
          else if Ascii.eqb c "[" then
            match depth with
            | O => Raises RecursionError
            | S inner =>
                match skip_ws rest with
                | String "]" r => Ok (JArr [], r)
                | r => array_loop n inner r []
                end
            end
          else
            match strip_prefix "null" s, strip_prefix "true" s,
                  strip_prefix "false" s with
            | Some r, _, _ => Ok (JNull, r)
            | _, Some r, _ => Ok (JBool true, r)
            | _, _, Some r => Ok (JBool false, r)
            | None, None, None =>
                match match_number s with
                | Some res => res
                | None =>
                    match strip_prefix "NaN" s, strip_prefix "Infinity" s,
                          strip_prefix "-Infinity" s with
                    | Some r, _, _ => Ok (JFloat NaN, r)
                    | _, Some r, _ => Ok (JFloat (Infinite false), r)
                    | _, _, Some r => Ok (JFloat (Infinite true), r)
                    | None, None, None => DecodeError
                    end
                end
            end
      end
  end

with object_loop (fuel : nat) (depth : nat) (s : string)
       (pairs : list (string * json)) {struct fuel} : result (json * string) :=
  match fuel with
  | O => OutOfFuel
  | S n =>
      ' (key, s1) <- scanstring s ;;
      match skip_ws s1 with
      | String ":" s2 =>
          ' (value, s3) <- scan_once n depth (skip_ws s2) ;;
          let pairs' := (pairs ++ [(key, value)])%list in
          match skip_ws s3 with
          | String "}" r => Ok (JObj (dict_of_pairs pairs'), r)
          | String "," s4 =>
              match skip_ws s4 with
              | String "034" s5 => object_loop n depth s5 pairs'
              | _ => DecodeError
              end
          | _ => DecodeError
          end
      | _ => DecodeError
      end
  end

with array_loop (fuel : nat) (depth : nat) (s : string) (values : list json)
       {struct fuel} : result (json * string) :=
  match fuel with
  | O => OutOfFuel
  | S n =>
      ' (value, s1) <- scan_once n depth s ;;
      let values' := (values ++ [value])%list in
      match skip_ws s1 with
      | String "]" r => Ok (JArr values', r)
      | String "," s2 => array_loop n depth (skip_ws s2) values'
      | _ => DecodeError
      end
  end.


(** [json.load(f)] on the text of the file: [JSONDecoder.decode], called
    when the interpreter has room for [depth] nested containers. *)
Definition loads (depth : nat) (s : string) : result json :=
  ' (obj, rest) <- scan_once (S (2 * String.length s)) depth (skip_ws s) ;;
  match skip_ws rest with
  | "" => Ok obj
  | _ => DecodeError
  end.

End Json.

(** ** The ledger and its operations *)

Module Ledger.
Import Dates Binary64 Json.

(** One entry of ["pto_requests"]. *)
Record Request := mkRequest {
  date : string;
  is_half_day : bool;
  hours : Z;
  note : string
}.

(** A Python number.  The yearly allowance is the [int] of the default
    document or of the file, or whatever [set_yearly_pto_hours] was given:
    a [float] by its annotation and from the desktop form, an [int] from a
    caller that passes one. *)
Inductive number :=
| Int (z : Z)
| Float (x : float).

Coercion Int : Z >-> number.
Bind Scope Z_scope with number.

Definition number_json (a : number) : json :=
  match a with
  | Int z => JInt z
  | Float x => JFloat x
  end.

(** The document [self.data]. *)
Record Document := mkDocument {
  yearly_pto_hours : number;
  used_pto_hours : Z;
  pto_requests : list Request
}.

(** The dict behind a request and behind the document, with the keys in
    the order the code creates them. *)
Definition request_json (r : Request) : json :=
  JObj [("date", JStr (date r));
        ("is_half_day", JBool (is_half_day r));
        ("hours", JInt (hours r));
        ("note", JStr (note r))].

Definition document_json (d : Document) : json :=
  JObj [("yearly_pto_hours", number_json (yearly_pto_hours d));
        ("used_pto_hours", JInt (used_pto_hours d));
        ("pto_requests", JArr (map request_json (pto_requests d)))].

(** The file at [self.data_file]. *)
Inductive file_state :=
| Missing                 (* [os.path.exists] is false *)
| Unreadable              (* exists, but [open] or [read] raises *)
| Text (contents : string).

(** A [PTOManager] object together with the file it persists to. *)
Record PTOManager := mkPTOManager {
  data : Document;
  data_file : file_state
}.

(** What an operation prints. *)
Inductive message :=
| InvalidDate             (* "Invalid date format. Please use MM-DD-YY." *)
| InvalidLookupDate       (* "Invalid date format for lookup date. ..." *)
| InvalidNewDate          (* "Invalid date format for new date. ..." *)
| DuplicateDate (display_date : string)
                          (* "A PTO request for ... already exists. Use edit instead." *)
| NotFound (display_date : string)
                          (* "No PTO request found for ..." *)
| Added (display_date : string)
| Updated (display_date : string)
| Removed (display_date : string)
| YearlySet (hours : number).
                          (* "Yearly PTO hours set to ..." *)

(** The default data structure of [_load_data]. *)
Definition default_document : Document :=
  mkDocument 0 0 [].

(** What a call of [_load_data] comes to: the value it returns, or an
    exception that leaves it; [Unmodelled] where the scanner model
    abstains. *)
Inductive loaded :=
| Returned (doc : json)
| Raised
| Unmodelled.

(** [PTOManager._load_data]: only [json.JSONDecodeError] is caught, so
    the errors of [open] and [read] and the other exceptions of
    [json.load] leave it.  [depth] is the room the interpreter has for
    nested containers when [json.load] is called. *)
Definition _load_data (depth : nat) (f : file_state) : loaded :=
  match f with
  | Missing => Returned (document_json default_document)
  | Unreadable => Raised
  | Text contents =>
      match loads depth contents with
      | Ok doc => Returned doc
      | DecodeError => Returned (document_json default_document)
      | Raises _ => Raised
      | NotLatin1 | OutOfFuel => Unmodelled
      end
  end.

(** Reading a value back as a request and as a document.  The documents
    of the model are the dicts the program builds: the keys it creates, in
    the order it creates them, with values of the types it stores.  A dict
    with other keys, another order or other types is a value the operations
    are not followed on. *)
Definition request_of_json (j : json) : option Request :=
  match j with
  | JObj [(k1, JStr dt); (k2, JBool b); (k3, JInt h); (k4, JStr n)] =>
      if ((k1 =? "date") && (k2 =? "is_half_day")
          && (k3 =? "hours") && (k4 =? "note"))%string
      then Some (mkRequest dt b h n) else None
  | _ => None
  end.

Fixpoint requests_of_json (l : list json) : option (list Request) :=
  match l with
  | [] => Some []
  | j :: l' =>
      match request_of_json j, requests_of_json l' with
      | Some r, Some rs => Some (r :: rs)
      | _, _ => None
      end
  end.

Definition number_of_json (j : json) : option number :=
  match j with
  | JInt z => Some (Int z)
  | JFloat x => Some (Float x)
  | _ => None
  end.

Definition document_of_json (j : json) : option Document :=
  match j with
  | JObj [(k1, y); (k2, JInt u); (k3, JArr l)] =>
      if ((k1 =? "yearly_pto_hours") && (k2 =? "used_pto_hours")
          && (k3 =? "pto_requests"))%string
      then match number_of_json y, requests_of_json l with
           | Some a, Some rs => Some (mkDocument a u rs)
           | _, _ => None
           end
      else None
  | _ => None
  end.

(** What constructing a [PTOManager] comes to. *)
Inductive startup :=
| Running (self : PTOManager)
                          (* [self.data] is a document of the model *)
| Crashed                 (* an exception left [__init__] *)
| OtherData (doc : json)  (* [self.data] is some other value *)
| Abstained.              (* the scanner model abstained *)

(** [PTOManager.__init__]: [self.data] is whatever [_load_data]
    returned. *)
Definition init (depth : nat) (f : file_state) : startup :=
  match _load_data depth f with
  | Returned doc =>
      match document_of_json doc with
      | Some d => Running (mkPTOManager d f)
      | None => OtherData doc
      end
  | Raised => Crashed
  | Unmodelled => Abstained
  end.

(** [PTOManager._save_data] *)
Definition _save_data (self : PTOManager) : PTOManager :=
  mkPTOManager (data self) (Text (dump (document_json (data self)))).

(** Truth value of an [Optional[str]]: [None] and [""] are false. *)
Definition truthy (o : option string) : bool :=
  match o with
  | None | Some "" => false
  | Some _ => true
  end.

(** [list.sort(key=lambda x: x["date"])]: a stable sort, keys compared
    as strings.  Insertion from the right keeps equal keys in their
    original order. *)
Fixpoint insert_by_date (x : Request) (l : list Request) : list Request :=
  match l with
  | [] => [x]
  | y :: l' =>
      if (date x <=? date y)%string then x :: y :: l'
      else y :: insert_by_date x l'
  end.

Fixpoint sort_by_date (l : list Request) : list Request :=
  match l with
  | [] => []
  | x :: l' => insert_by_date x (sort_by_date l')
  end.

(** [for i, request in enumerate(requests): if request["date"] == d]:
    the first index whose request has the date [d]. *)
Fixpoint find_date (d : string) (requests : list Request) : option (nat * Request) :=
  match requests with
  | [] => None
  | request :: rest =>
      if (date request =? d)%string then Some (O, request)
      else match find_date d rest with
           | Some (i, r) => Some (S i, r)
           | None => None
           end
  end.

(** [requests.pop(i)] and [requests[i] = r], for [i] in range. *)
Definition pop (i : nat) (requests : list Request) : list Request :=
  firstn i requests ++ skipn (S i) requests.

Definition set_item (i : nat) (r : Request) (requests : list Request) : list Request :=
  firstn i requests ++ r :: skipn (S i) requests.

(** [PTOManager.set_yearly_pto_hours] *)
Definition set_yearly_pto_hours (hrs : number) (self : PTOManager)
  : PTOManager * message :=
  let d := data self in
  (_save_data (mkPTOManager
                 (mkDocument hrs (used_pto_hours d) (pto_requests d))
                 (data_file self)),
   YearlySet hrs).

(** [PTOManager.add_pto_request] *)
Definition add_pto_request (date_str : string) (half : bool) (note_str : string)
           (self : PTOManager) : PTOManager * message :=
  let normalized := _validate_date date_str in
  if negb (truthy normalized) then (self, InvalidDate)
  else
    let normalized_date := match normalized with Some s => s | None => "" end in
    let d := data self in
    if existsb (fun request => (date request =? normalized_date)%string)
               (pto_requests d)
    then (self, DuplicateDate (_format_date_for_display normalized_date))
    else
      let hrs := if half then 4%Z else 8%Z in
      let new_request := mkRequest normalized_date half hrs note_str in
      let requests := sort_by_date (pto_requests d ++ [new_request]) in
      (_save_data (mkPTOManager
                     (mkDocument (yearly_pto_hours d)
                                 (used_pto_hours d + hrs) requests)
                     (data_file self)),
       Added (_format_date_for_display normalized_date)).

(** The body of the loop of [edit_pto_request] on the request found:
    only the fields supplied are changed. *)
Definition apply_edit (normalized_new_date : option string)
           (half : option bool) (note_opt : option string)
           (request : Request) : Request :=
  let r1 := match normalized_new_date with
            | Some nd => mkRequest nd (is_half_day request) (hours request) (note request)
            | None => request
            end in
  let r2 := match half with
            | Some b => mkRequest (date r1) b (if b then 4%Z else 8%Z) (note r1)
            | None => r1
            end in
  match note_opt with
  | Some n => mkRequest (date r2) (is_half_day r2) (hours r2) n
  | None => r2
  end.

(** [PTOManager.edit_pto_request] *)
Definition edit_pto_request (date_str : string) (new_date : option string)
           (half : option bool) (note_opt : option string)
           (self : PTOManager) : PTOManager * message :=
  let normalized := _validate_date date_str in
  if negb (truthy normalized) then (self, InvalidLookupDate)
  else
    let normalized_date := match normalized with Some s => s | None => "" end in
    let normalized_new_date :=
      if truthy new_date
      then _validate_date (match new_date with Some s => s | None => "" end)
      else None in
    if truthy new_date && negb (truthy normalized_new_date)
    then (self, InvalidNewDate)
    else
      let d := data self in
      match find_date normalized_date (pto_requests d) with
      | Some (i, request) =>
          let old_hours := hours request in
          let request' := apply_edit normalized_new_date half note_opt request in
          let used := (used_pto_hours d - old_hours + hours request')%Z in
          let requests := sort_by_date (set_item i request' (pto_requests d)) in
          (_save_data (mkPTOManager
                         (mkDocument (yearly_pto_hours d) used requests)
                         (data_file self)),
           Updated (_format_date_for_display normalized_date))
      | None => (self, NotFound (_format_date_for_display normalized_date))
      end.

(** [PTOManager.remove_pto_request] *)
Definition remove_pto_request (date_str : string) (self : PTOManager)
  : PTOManager * message :=
  let normalized := _validate_date date_str in
  if negb (truthy normalized) then (self, InvalidDate)
  else
    let normalized_date := match normalized with Some s => s | None => "" end in
    let d := data self in
    match find_date normalized_date (pto_requests d) with
    | Some (i, request) =>
        (_save_data (mkPTOManager
                       (mkDocument (yearly_pto_hours d)
                                   (used_pto_hours d - hours request)
                                   (pop i (pto_requests d)))
                       (data_file self)),
         Removed (_format_date_for_display normalized_date))
    | None => (self, NotFound (_format_date_for_display normalized_date))
    end.

(** *** Sequences of operations and the two invariants of the spec *)

Inductive op :=
| Add (date_str : string) (half : bool) (note_str : string)
| Edit (date_str : string) (new_date : option string)
       (half : option bool) (note_opt : option string)
| Remove (date_str : string)
| SetYearly (hrs : number).

Definition step (o : op) (self : PTOManager) : PTOManager * message :=
  match o with
  | Add d h n => add_pto_request d h n self
  | Edit d nd h n => edit_pto_request d nd h n self
  | Remove d => remove_pto_request d self
  | SetYearly hrs => set_yearly_pto_hours hrs self
  end.

Definition run (ops : list op) (self : PTOManager) : PTOManager :=
  fold_left (fun st o => fst (step o st)) ops self.

(** [sum(r["hours"] for r in requests)] *)
Definition sum_hours (requests : list Request) : Z :=
  fold_right (fun r acc => (hours r + acc)%Z) 0%Z requests.

(** The invariant of the spec: the running total agrees with the
    requests. *)
Definition in_sync (self : PTOManager) : Prop :=
  used_pto_hours (data self) = sum_hours (pto_requests (data self)).

Definition date_le (a b : Request) : Prop :=
  (date a <=? date b)%string = true.

(** Ascending order of the date keys: each request is no later than its
    successor. *)
Definition sorted_by_date (requests : list Request) : Prop :=
  Sorted date_le requests.

(** How many requests carry the date [d]. *)
Definition count_date (d : string) (requests : list Request) : nat :=
  List.length (filter (fun r => (date r =? d)%string) requests).

(** *** The read-only commands *)

(** [a - u] for the allowance and the used hours.  An [int] is converted
    to a [float] before it is subtracted from one; [None] stands for the
    [OverflowError] of that conversion. *)
Definition number_sub (a : number) (u : Z) : option number :=
  match a with
  | Int z => Some (Int (z - u))
  | Float x =>
      match float_of_int u with
      | Some y => Some (Float (float_sub x y))
      | None => None
      end
  end.

(** [PTOManager.show_summary]: the three figures it prints, the allowance,
    the used hours and the remaining hours; [None] when the subtraction
    raises and nothing is printed. *)
Definition show_summary (self : PTOManager) : option (number * Z * number) :=
  match number_sub (yearly_pto_hours (data self)) (used_pto_hours (data self)) with
  | Some remaining =>
      Some (yearly_pto_hours (data self), used_pto_hours (data self), remaining)
  | None => None
  end.

(** [s * n] on strings. *)
Fixpoint times (s : string) (n : nat) : string :=
  match n with
  | O => ""
  | S k => s ++ times s k
  end.

(** The line [list_pto_requests] prints for one request. *)
Definition request_line (request : Request) : string :=
  let day_type := if is_half_day request then "Half Day" else "Full Day" in
  let display_date := _format_date_for_display (date request) in
  let note_str := if truthy (Some (note request))
                  then " - Note: " ++ note request else "" in
  display_date ++ " - " ++ day_type ++ " (" ++ intstr (hours request)
  ++ " hours)" ++ note_str.

(** [PTOManager.list_pto_requests]: what it prints, one string for each
    call of [print]. *)
Definition list_pto_requests (self : PTOManager) : list string :=
  match pto_requests (data self) with
  | [] => ["No PTO requests found."]
  | requests =>
      [String "010" "Current PTO Requests:"; times "=" 50]
      ++ map request_line requests
      ++ [times "=" 50]
  end.

(** *** What the operations keep true *)

(** A request as the operations create it: its date is the canonical form
    of a date a two-digit year can denote, and its hours are 4 for a half
    day and 8 for a full day. *)
Definition created_request (r : Request) : Prop :=
  (exists t, two_digit_year_date t /\ date r = strftime_Ymd t)
  /\ hours r = (if is_half_day r then 4 else 8)%Z.

(** The managers reached from the default document. *)
Definition reached (self : PTOManager) : Prop :=
  exists ops f, self = run ops (mkPTOManager default_document f).


(** The numbers [json.dump] writes and [json.load] reads back: an [int]
    within the cap on digits, a [float] that is a binary64. *)
Definition storable_number (a : number) : bool :=
  match a with
  | Int z => within_digit_limit z
  | Float x => is_binary64 x
  end.









(** An operation that leaves every date key alone: anything but an edit
    with a new date. *)
Definition keeps_dates (o : op) : bool :=
  match o with
  | Edit _ new_date _ _ => negb (truthy new_date)
  | _ => true
  end.

End Ledger.

Import Chars Dates Binary64 Json Ledger.

(** * Properties of the ledger operations *)

Section Normalised_dates.

Lemma strftime_Ymd_nonempty (t : datetime) : truthy (Some (strftime_Ymd t)) = true.
Proof. reflexivity. Qed.

(** A normalised date is never the empty string, so the test
    [if not normalized_date] only catches [None]. *)
Lemma validate_truthy (s iso : string) :
  _validate_date s = Some iso -> truthy (Some iso) = true.
Proof.
  unfold _validate_date.
  destruct (strptime_mdy s) as [t|]; [|discriminate].
  intros H; injection H as <-. apply strftime_Ymd_nonempty.
Qed.

Lemma validate_None_falsy (s : string) :
  _validate_date s = None -> truthy (_validate_date s) = false.
Proof. intros ->. reflexivity. Qed.

End Normalised_dates.

(** Unfold an operation at a date that normalises to [iso]. *)
Ltac normalise H :=
  let T := fresh "Htruthy" in
  pose proof (validate_truthy _ _ H) as T;
  rewrite H; rewrite T; cbn [negb].

Section Duplicates.

Lemma existsb_date (d : string) (requests : list Request) :
  (exists request, In request requests /\ date request = d) ->
  existsb (fun request => (date request =? d)%string) requests = true.
Proof.
  intros (r & Hin & Hd). apply existsb_exists.
  exists r; split; [assumption|]. now apply String.eqb_eq.
Qed.

End Duplicates.

(** C2. Adding a request for a date that already has one prints the
    duplicate-date message and returns the manager as it was: allowance,
    used hours, request list and storage file are all unchanged. *)
Theorem add_duplicate_date_rejected :
  forall (self : PTOManager) (date_str normalized_date : string)
         (half : bool) (note_str : string),
    _validate_date date_str = Some normalized_date ->
    (exists request, In request (pto_requests (data self))
                     /\ date request = normalized_date) ->
    add_pto_request date_str half note_str self
    = (self, DuplicateDate (_format_date_for_display normalized_date)).
Proof.
  intros self date_str nd half note_str Hv Hex.
  unfold add_pto_request. normalise Hv.
  now rewrite (existsb_date _ _ Hex).
Qed.

Lemma add_duplicate_date_rejected_witness :
  let self := mkPTOManager
                (mkDocument 80 8 [mkRequest "2024-01-15" false 8 ""]) Missing in
  add_pto_request "01-15-24" true "again" self
  = (self, DuplicateDate "01-15-24").
Proof.
  intros self.
  apply (add_duplicate_date_rejected self "01-15-24" "2024-01-15" true "again").
  - reflexivity.
  - exists (mkRequest "2024-01-15" false 8 ""). split; [left|]; reflexivity.
Defined.

(** ** Rejected dates *)

(** C6, as the spec words it, fails when the string that cannot be parsed
    is an empty [new_date]: [if new_date:] takes it for "not supplied",
    and the edit goes through, changes the request and is saved. *)
Lemma edit_blank_new_date_goes_through :
  let self := mkPTOManager
                (mkDocument 80 8 [mkRequest "2024-01-15" false 8 ""]) Missing in
  let self' := fst (edit_pto_request "01-15-24" (Some "") (Some true) None self) in
  _validate_date "" = None
  /\ snd (edit_pto_request "01-15-24" (Some "") (Some true) None self)
     = Updated "01-15-24"
  /\ data self' = mkDocument 80 4 [mkRequest "2024-01-15" true 4 ""]
  /\ data_file self' <> data_file self.
Proof.
  cbv zeta. repeat split; try reflexivity.
  vm_compute. discriminate.
Qed.

(** C6, amended. A date string that [_validate_date] cannot parse makes
    [add_pto_request] fail when it is the date, and [edit_pto_request] fail
    when it is the lookup date or a non-empty new date; the manager, storage
    file included, is returned as it was. *)
Theorem unparseable_date_rejected :
  forall (self : PTOManager) (s : string),
    _validate_date s = None ->
    (forall half note_str,
        add_pto_request s half note_str self = (self, InvalidDate))
    /\ (forall new_date half note_opt,
           edit_pto_request s new_date half note_opt self
           = (self, InvalidLookupDate))
    /\ (s <> "" ->
        forall date_str half note_opt,
          edit_pto_request date_str (Some s) half note_opt self
          = (self, if truthy (_validate_date date_str)
                   then InvalidNewDate else InvalidLookupDate)).
Proof.
  intros self s Hs. repeat split.
  - intros. unfold add_pto_request. now rewrite Hs.
  - intros. unfold edit_pto_request. now rewrite Hs.
  - intros Hne date_str half note_opt. unfold edit_pto_request.
    destruct (truthy (_validate_date date_str)); [|reflexivity].
    cbn [negb].
    assert (Ht : truthy (Some s) = true) by (destruct s; [contradiction|reflexivity]).
    rewrite Ht, Hs. reflexivity.
Qed.

Lemma unparseable_date_rejected_witness :
  let self := mkPTOManager
                (mkDocument 80 8 [mkRequest "2024-01-15" false 8 ""]) Missing in
  add_pto_request "13-45-99" false "" self = (self, InvalidDate)
  /\ edit_pto_request "13-45-99" None (Some true) None self
     = (self, InvalidLookupDate)
  /\ edit_pto_request "01-15-24" (Some "13-45-99") (Some true) None self
     = (self, InvalidNewDate).
Proof.
  intros self.
  destruct (unparseable_date_rejected self "13-45-99" eq_refl) as (Ha & Hl & Hn).
  split; [|split].
  - apply Ha.
  - apply Hl.
  - apply (Hn ltac:(discriminate) "01-15-24" (Some true) None).
Defined.

(** ** The worked example of the spec *)

(** C5. From allowance 80, used 0 and no requests: a full-day request on
    01-15-24 gives used 8 and one request; a second add for that date
    fails and changes nothing; editing the request to a half day gives used
    4; removing it gives used 0 and no requests.  Whatever the storage file
    held and whatever notes are passed. *)
Theorem worked_example :
  forall (f : file_state) (note1 note2 : string) (half2 : bool),
    let s0 := mkPTOManager (mkDocument 80 0 []) f in
    let s1 := fst (add_pto_request "01-15-24" false note1 s0) in
    let r2 := add_pto_request "01-15-24" half2 note2 s1 in
    let s3 := fst (edit_pto_request "01-15-24" None (Some true) None (fst r2)) in
    let s4 := fst (remove_pto_request "01-15-24" s3) in
    (used_pto_hours (data s1) = 8%Z
     /\ List.length (pto_requests (data s1)) = 1%nat)
    /\ (snd r2 = DuplicateDate "01-15-24" /\ fst r2 = s1
        /\ used_pto_hours (data (fst r2)) = 8%Z)
    /\ used_pto_hours (data s3) = 4%Z
    /\ (used_pto_hours (data s4) = 0%Z /\ pto_requests (data s4) = []).
Proof.
  intros f note1 note2 half2.
  assert (Hv : _validate_date "01-15-24" = Some "2024-01-15") by reflexivity.
  assert (Hd : _format_date_for_display "2024-01-15" = "01-15-24") by reflexivity.
  cbv zeta.
  assert (H1 : fst (add_pto_request "01-15-24" false note1
                      (mkPTOManager (mkDocument 80 0 []) f))
               = _save_data (mkPTOManager
                   (mkDocument 80 8 [mkRequest "2024-01-15" false 8 note1]) f)).
  { unfold add_pto_request. rewrite Hv. reflexivity. }
  rewrite H1.
  assert (H2 : add_pto_request "01-15-24" half2 note2
                 (_save_data (mkPTOManager
                   (mkDocument 80 8 [mkRequest "2024-01-15" false 8 note1]) f))
               = (_save_data (mkPTOManager
                   (mkDocument 80 8 [mkRequest "2024-01-15" false 8 note1]) f),
                  DuplicateDate "01-15-24")).
  { unfold add_pto_request. rewrite Hv, Hd. reflexivity. }
  rewrite H2. cbn [fst snd].
  unfold edit_pto_request, remove_pto_request. rewrite Hv.
  repeat split.
Qed.

(** ** The running total of used hours *)

Section Used_hours.

Lemma sum_hours_app (a b : list Request) :
  sum_hours (a ++ b)%list = (sum_hours a + sum_hours b)%Z.
Proof.
  induction a as [|x a IH]; cbn; [reflexivity|].
  fold (sum_hours (a ++ b)%list) (sum_hours a). rewrite IH. lia.
Qed.

Lemma sum_hours_cons (x : Request) (l : list Request) :
  sum_hours (x :: l) = (hours x + sum_hours l)%Z.
Proof. reflexivity. Qed.

Lemma sum_hours_insert (x : Request) (l : list Request) :
  sum_hours (insert_by_date x l) = (hours x + sum_hours l)%Z.
Proof.
  induction l as [|y l IH]; cbn [insert_by_date]; [reflexivity|].
  destruct (date x <=? date y)%string; rewrite ?sum_hours_cons; [reflexivity|].
  rewrite IH. lia.
Qed.

(** Sorting moves requests around and changes none of them. *)
Lemma sum_hours_sort (l : list Request) :
  sum_hours (sort_by_date l) = sum_hours l.
Proof.
  induction l as [|x l IH]; cbn [sort_by_date]; [reflexivity|].
  rewrite sum_hours_insert, sum_hours_cons, IH. reflexivity.
Qed.

(** What the loop over [enumerate(requests)] finds: the list splits at
    the index, and the request there has the date looked for. *)
Lemma find_date_split (d : string) (l : list Request) (i : nat) (r : Request) :
  find_date d l = Some (i, r) ->
  l = (firstn i l ++ r :: skipn (S i) l)%list /\ date r = d.
Proof.
  revert i; induction l as [|x l IH]; intros i; cbn [find_date]; [discriminate|].
  destruct (date x =? d)%string eqn:E.
  - intros H; injection H as <- <-. split; [reflexivity|].
    now apply String.eqb_eq.
  - destruct (find_date d l) as [[j r']|]; [|discriminate].
    intros H; injection H as <- <-.
    destruct (IH j eq_refl) as [Hl Hd]. split; [|assumption].
    change (skipn (S (S j)) (x :: l)) with (skipn (S j) l).
    cbn [firstn]. rewrite <- app_comm_cons. f_equal. exact Hl.
Qed.

Lemma sum_hours_pop (d : string) (l : list Request) (i : nat) (r : Request) :
  find_date d l = Some (i, r) ->
  sum_hours (pop i l) = (sum_hours l - hours r)%Z.
Proof.
  intros H. destruct (find_date_split _ _ _ _ H) as [Hl _].
  rewrite Hl at 2. unfold pop.
  rewrite !sum_hours_app, sum_hours_cons. lia.
Qed.

Lemma sum_hours_set_item (d : string) (l : list Request) (i : nat)
      (r r' : Request) :
  find_date d l = Some (i, r) ->
  sum_hours (set_item i r' l) = (sum_hours l - hours r + hours r')%Z.
Proof.
  intros H. destruct (find_date_split _ _ _ _ H) as [Hl _].
  rewrite Hl at 2. unfold set_item.
  rewrite !sum_hours_app, !sum_hours_cons. lia.
Qed.

Lemma step_in_sync (o : op) (self : PTOManager) :
  in_sync self -> in_sync (fst (step o self)).
Proof.
  unfold in_sync. intros Hinv.
  destruct o as [d h n | d nd h n | d | hrs]; cbn [step].
  - unfold add_pto_request.
    destruct (negb (truthy (_validate_date d))); [assumption|].
    destruct (existsb _ _); [assumption|].
    unfold _save_data; cbn [fst data used_pto_hours pto_requests].
    rewrite sum_hours_sort, sum_hours_app, Hinv. cbn. lia.
  - unfold edit_pto_request.
    destruct (negb (truthy (_validate_date d))); [assumption|].
    destruct (_ && _); [assumption|].
    destruct (find_date _ _) as [[i r]|] eqn:Hf; [|assumption].
    unfold _save_data; cbn [fst data used_pto_hours pto_requests].
    rewrite sum_hours_sort, (sum_hours_set_item _ _ _ _ _ Hf), Hinv.
    reflexivity.
  - unfold remove_pto_request.
    destruct (negb (truthy (_validate_date d))); [assumption|].
    destruct (find_date _ _) as [[i r]|] eqn:Hf; [|assumption].
    unfold _save_data; cbn [fst data used_pto_hours pto_requests].
    rewrite (sum_hours_pop _ _ _ _ Hf), Hinv. reflexivity.
  - cbn. assumption.
Qed.

Lemma run_in_sync (ops : list op) (self : PTOManager) :
  in_sync self -> in_sync (run ops self).
Proof.
  revert self; induction ops as [|o ops IH]; intros self H; [assumption|].
  cbn [run fold_left]. apply IH, step_in_sync, H.
Qed.

End Used_hours.

(** C1. After any sequence of operations on the default document (zero
    allowance, zero used hours, no requests), whatever the storage file
    held, the used hours are the sum of the hours of the current
    requests. *)
Theorem used_hours_is_sum_of_requests :
  forall (ops : list op) (f : file_state),
    let self := run ops (mkPTOManager default_document f) in
    used_pto_hours (data self) = sum_hours (pto_requests (data self)).
Proof.
  intros ops f. apply run_in_sync. reflexivity.
Qed.

(** ** Date order of the request list *)


Section Date_order.

(** [<=?] on strings, as a disjunction. *)
Lemma string_leb_iff (a b : string) :
  (a <=? b)%string = true <-> String_as_OT.lt a b \/ a = b.
Proof.
  unfold String.leb. fold (String_as_OT.cmp a b).
  destruct (String_as_OT.cmp a b) eqn:E; split; intros H; try reflexivity.
  - right. now apply String_as_OT.cmp_eq.
  - left. now apply String_as_OT.cmp_lt.
  - discriminate.
  - destruct H as [H | H].
    + apply String_as_OT.cmp_lt in H. congruence.
    + apply String_as_OT.cmp_eq in H. congruence.
Qed.

Lemma string_leb_trans (a b c : string) :
  (a <=? b)%string = true -> (b <=? c)%string = true -> (a <=? c)%string = true.
Proof.
  rewrite !string_leb_iff. intros [Hab | ->] [Hbc | ->]; auto.
  left. eapply String_as_OT.lt_trans; eassumption.
Qed.

#[local] Instance date_le_trans : Transitive date_le.
Proof. intros x y z. apply string_leb_trans. Qed.

Lemma date_le_total (x y : Request) : date_le x y \/ date_le y x.
Proof. apply String.leb_total. Qed.

Lemma insert_HdRel (a x : Request) (l : list Request) :
  date_le a x -> HdRel date_le a l -> HdRel date_le a (insert_by_date x l).
Proof.
  intros Hax Hl. destruct l as [|y l]; cbn [insert_by_date].
  - now constructor.
  - destruct (date x <=? date y)%string; constructor; [assumption|].
    now inversion Hl.
Qed.

Lemma insert_sorted (x : Request) (l : list Request) :
  sorted_by_date l -> sorted_by_date (insert_by_date x l).
Proof.
  unfold sorted_by_date.
  induction 1 as [|y l Hs IH Hhd]; cbn [insert_by_date].
  - repeat constructor.
  - destruct (date x <=? date y)%string eqn:E.
    + constructor; [now constructor|]. now constructor.
    + constructor; [assumption|].
      apply insert_HdRel; [|assumption].
      destruct (date_le_total x y) as [H | H]; [|assumption].
      unfold date_le in H. congruence.
Qed.

Lemma insert_permutation (x : Request) (l : list Request) :
  Permutation (x :: l) (insert_by_date x l).
Proof.
  induction l as [|y l IH]; cbn [insert_by_date]; [reflexivity|].
  destruct (date x <=? date y)%string; [reflexivity|].
  rewrite perm_swap. now constructor.
Qed.

(** [list.sort] rearranges the requests and loses none. *)
Lemma sort_permutation (l : list Request) : Permutation l (sort_by_date l).
Proof.
  induction l as [|x l IH]; cbn [sort_by_date]; [reflexivity|].
  rewrite <- insert_permutation. now constructor.
Qed.

(** [list.sort] leaves the list in ascending date order. *)
Lemma sort_sorted (l : list Request) : sorted_by_date (sort_by_date l).
Proof.
  induction l as [|x l IH]; cbn [sort_by_date].
  - constructor.
  - now apply insert_sorted.
Qed.

Lemma StronglySorted_remove_middle (a b : list Request) (x : Request) :
  StronglySorted date_le (a ++ x :: b) -> StronglySorted date_le (a ++ b).
Proof.
  induction a as [|y a IH]; cbn; intros H.
  - now inversion H.
  - inversion H as [|? ? Hs Hall]; subst. constructor; [now apply IH|].
    rewrite Forall_app in Hall |- *. destruct Hall as [Ha Hb].
    split; [assumption|]. now inversion Hb.
Qed.

(** [list.pop(i)] keeps the order of what stays. *)
Lemma pop_sorted (d : string) (l : list Request) (i : nat) (r : Request) :
  find_date d l = Some (i, r) ->
  sorted_by_date l -> sorted_by_date (pop i l).
Proof.
  intros Hf Hs. destruct (find_date_split _ _ _ _ Hf) as [Hl _].
  unfold sorted_by_date, pop in *.
  apply StronglySorted_Sorted, (StronglySorted_remove_middle _ _ r).
  rewrite <- Hl. now apply Sorted_StronglySorted; [exact date_le_trans|].
Qed.

End Date_order.

(** C3. Each mutating operation (add, edit, remove, set the allowance),
    applied to a manager whose request list is in ascending date order,
    leaves the request list in ascending date order, whether the operation
    goes through or is rejected. *)
Theorem requests_stay_sorted :
  forall (o : op) (self : PTOManager),
    sorted_by_date (pto_requests (data self)) ->
    sorted_by_date (pto_requests (data (fst (step o self)))).
Proof.
  intros o self Hs.
  destruct o as [d h n | d nd h n | d | hrs]; cbn [step].
  - unfold add_pto_request.
    destruct (negb (truthy (_validate_date d))); [assumption|].
    destruct (existsb _ _); [assumption|].
    apply sort_sorted.
  - unfold edit_pto_request.
    destruct (negb (truthy (_validate_date d))); [assumption|].
    destruct (_ && _); [assumption|].
    destruct (find_date _ _) as [[i r]|] eqn:Hf; [|assumption].
    apply sort_sorted.
  - unfold remove_pto_request.
    destruct (negb (truthy (_validate_date d))); [assumption|].
    destruct (find_date _ _) as [[i r]|] eqn:Hf; [|assumption].
    apply (pop_sorted _ _ _ _ Hf Hs).
  - assumption.
Qed.

Lemma requests_stay_sorted_witness :
  let self := mkPTOManager
                (mkDocument 80 16 [mkRequest "2024-01-15" false 8 "";
                                   mkRequest "2024-03-01" false 8 ""]) Missing in
  sorted_by_date (pto_requests (data self))
  /\ sorted_by_date
       (pto_requests (data (fst (step (Add "02-10-24" true "") self)))).
Proof.
  intros self.
  assert (Hs : sorted_by_date (pto_requests (data self))).
  { repeat constructor. }
  split; [exact Hs|].
  apply (requests_stay_sorted (Add "02-10-24" true "") self Hs).
Defined.

(** ** Editing a request onto a date that is taken *)

Section Taken_dates.

Lemma count_date_app (d : string) (a b : list Request) :
  count_date d (a ++ b)%list = (count_date d a + count_date d b)%nat.
Proof. unfold count_date. now rewrite filter_app, length_app. Qed.

Lemma count_date_cons (d : string) (x : Request) (l : list Request) :
  count_date d (x :: l)
  = ((if (date x =? d)%string then 1 else 0) + count_date d l)%nat.
Proof. unfold count_date. cbn [filter]. now destruct (date x =? d)%string. Qed.

Lemma count_date_insert (d : string) (x : Request) (l : list Request) :
  count_date d (insert_by_date x l) = count_date d (x :: l).
Proof.
  induction l as [|y l IH]; cbn [insert_by_date]; [reflexivity|].
  destruct (date x <=? date y)%string; [reflexivity|].
  rewrite (count_date_cons d y), IH, !count_date_cons. lia.
Qed.

Lemma count_date_sort (d : string) (l : list Request) :
  count_date d (sort_by_date l) = count_date d l.
Proof.
  induction l as [|x l IH]; cbn [sort_by_date]; [reflexivity|].
  now rewrite count_date_insert, !count_date_cons, IH.
Qed.

Lemma count_date_find (d : string) (l : list Request) :
  (1 <= count_date d l)%nat -> exists i r, find_date d l = Some (i, r).
Proof.
  induction l as [|x l IH]; [cbn; lia|].
  rewrite count_date_cons. cbn [find_date].
  destruct (date x =? d)%string; [eauto|].
  intros H. destruct (IH H) as (i & r & ->). eauto.
Qed.

(** Editing the request of one date onto another date goes through
    whatever requests the other date already has: afterwards that date has
    one request more. *)
Lemma edit_onto_taken_date (self : PTOManager) (d1 d2 n1 n2 : string) :
  _validate_date d1 = Some n1 ->
  _validate_date d2 = Some n2 ->
  n1 <> n2 ->
  (1 <= count_date n1 (pto_requests (data self)))%nat ->
  snd (edit_pto_request d1 (Some d2) None None self)
  = Updated (_format_date_for_display n1)
  /\ count_date n2
       (pto_requests (data (fst (edit_pto_request d1 (Some d2) None None self))))
     = S (count_date n2 (pto_requests (data self))).
Proof.
  intros H1 H2 Hne Hc.
  destruct (count_date_find _ _ Hc) as (i & r & Hf).
  assert (Ht : truthy (Some d2) = true).
  { destruct d2; [discriminate H2|reflexivity]. }
  unfold edit_pto_request. normalise H1. rewrite Ht.
  normalise H2. cbn [andb]. rewrite Hf.
  split; [reflexivity|].
  unfold _save_data, apply_edit. cbn [fst data pto_requests date].
  rewrite count_date_sort.
  destruct (find_date_split _ _ _ _ Hf) as [Hl Hd].
  rewrite Hl at 2. unfold set_item.
  rewrite !count_date_app, !count_date_cons. cbn [date].
  rewrite String.eqb_refl, Hd.
  destruct (String.eqb_spec n1 n2); [contradiction|]. lia.
Qed.

End Taken_dates.

(** C10. There is a manager holding requests on two different dates for
    which editing the first onto the date of the second goes through and
    leaves two requests with the same date: [edit_pto_request] never compares
    the new date with the dates already present, whereas [add_pto_request]
    rejects that date. *)
Theorem edit_can_duplicate_a_date :
  exists (self : PTOManager) (d1 d2 n1 n2 : string),
    _validate_date d1 = Some n1
    /\ _validate_date d2 = Some n2
    /\ n1 <> n2
    /\ count_date n1 (pto_requests (data self)) = 1%nat
    /\ count_date n2 (pto_requests (data self)) = 1%nat
    /\ snd (edit_pto_request d1 (Some d2) None None self)
       = Updated (_format_date_for_display n1)
    /\ count_date n2
         (pto_requests (data (fst (edit_pto_request d1 (Some d2) None None self))))
       = 2%nat
    /\ snd (add_pto_request d2 false "" self)
       = DuplicateDate (_format_date_for_display n2).
Proof.
  set (self := mkPTOManager
                 (mkDocument 80 12 [mkRequest "2024-01-15" false 8 "";
                                    mkRequest "2024-03-01" true 4 ""]) Missing).
  exists self, "01-15-24", "03-01-24", "2024-01-15", "2024-03-01".
  assert (Hne : "2024-01-15" <> "2024-03-01") by discriminate.
  destruct (edit_onto_taken_date self "01-15-24" "03-01-24"
              "2024-01-15" "2024-03-01" eq_refl eq_refl Hne (le_n 1))
    as [Hm Hc].
  repeat split; try reflexivity; assumption.
Qed.

(** * Properties of date normalisation *)

(** Case analysis on whatever a hypothesis still matches on. *)
Ltac break_match :=
  match goal with
  | H : context [match ?e with _ => _ end] |- _ =>
      destruct e eqn:?; try discriminate
  end.

Ltac find_some :=
  match goal with
  | H : Some _ = Some _ |- _ => injection H as H; try subst
  end.

Ltac Zify.zify_post_hook ::= Z.to_euclidean_division_equations.

Section Matchers.

Lemma is_digit_val (c : ascii) : is_digit c = true -> (digit_val c <= 9)%N.
Proof.
  unfold is_digit, in_range, digit_val.
  change (code "0") with 48%N. change (code "9") with 57%N.
  rewrite andb_true_iff, !N.leb_le. lia.
Qed.

Context {R : Type}.

(** When a directive succeeds, its continuation succeeded on some value
    and some rest of the input. *)
Lemma re_dash_inv (k : string -> option R) s x :
  re_dash k s = Some x -> exists r, k r = Some x.
Proof.
  unfold re_dash. intros H.
  repeat match type of H with
         | context [match ?e with _ => _ end] => destruct e; try discriminate
         end.
  eauto.
Qed.

Lemma re_y_inv (k : N -> string -> option R) s x :
  re_y k s = Some x -> exists yy r, (yy <= 99)%N /\ k yy r = Some x.
Proof.
  unfold re_y. destruct s as [|c1 [|c2 r]]; try discriminate.
  destruct (is_digit c1) eqn:E1; [|discriminate].
  destruct (is_digit c2) eqn:E2; [|discriminate].
  cbn [andb]. intros H. eexists _, _; split; [|exact H].
  apply is_digit_val in E1, E2. lia.
Qed.

Lemma re_m_inv (k : N -> string -> option R) s x :
  re_m k s = Some x -> exists m r, k m r = Some x.
Proof.
  unfold re_m, orelse. intros H.
  repeat break_match; repeat find_some; eauto.
Qed.

Lemma re_d_inv (k : N -> string -> option R) s x :
  re_d k s = Some x -> exists d r, k d r = Some x.
Proof.
  unfold re_d, orelse. intros H.
  repeat break_match; repeat find_some; eauto.
Qed.

End Matchers.

Section Normalisation.

Lemma full_year_range (yy : N) :
  (yy <= 99 -> 1969 <= full_year yy <= 2068)%N.
Proof.
  intros H. unfold full_year.
  destruct (yy <=? 68)%N eqn:E;
    [apply N.leb_le in E | apply N.leb_gt in E]; lia.
Qed.

Lemma finish_inv y m d rest t :
  finish y m d rest = Some t ->
  rest = "" /\ valid_date y m d = true /\ t = mkdatetime y m d.
Proof.
  unfold finish. destruct rest; [|discriminate].
  destruct (valid_date y m d); [|discriminate].
  intros H; injection H as <-. auto.
Qed.

(** Whatever [strptime] accepts in the format [%m-%d-%y] is a valid
    calendar date of the years 1969..2068. *)
Lemma strptime_mdy_date (s : string) (t : datetime) :
  strptime_mdy s = Some t -> two_digit_year_date t.
Proof.
  unfold strptime_mdy.
  destruct (re_m _ s) as [[[[y m] d] rest]|] eqn:E; [|discriminate].
  intros H. apply finish_inv in H. destruct H as (_ & Hv & ->).
  apply re_m_inv in E. destruct E as (m' & r1 & E).
  apply re_dash_inv in E. destruct E as (r2 & E).
  apply re_d_inv in E. destruct E as (d' & r3 & E).
  apply re_dash_inv in E. destruct E as (r4 & E).
  apply re_y_inv in E. destruct E as (yy & r5 & Hyy & E).
  injection E as <- <- <- <-.
  split; [exact Hv|]. cbn [year]. now apply full_year_range.
Qed.

Lemma valid_date_bounds y m d :
  valid_date y m d = true ->
  (1 <= y <= 9999 /\ 1 <= m <= 12 /\ 1 <= d <= 31)%N.
Proof.
  unfold valid_date, MAXYEAR. rewrite !andb_true_iff, !N.leb_le.
  intros (((((Hy1 & Hy2) & Hm1) & Hm2) & Hd1) & Hd2).
  repeat split; try assumption.
  assert (days_in_month y m <= 31)%N; [|lia].
  unfold days_in_month.
  repeat match goal with
         | |- context [match ?e with _ => _ end] => destruct e
         end; lia.
Qed.

(** Small ranges of [N] are handled case by case. *)
Lemma N_range_cases (P : N -> Prop) (lo len : nat) :
  Forall P (map N.of_nat (seq lo len)) ->
  forall n, (N.of_nat lo <= n < N.of_nat (lo + len))%N -> P n.
Proof.
  intros H n Hn. rewrite Forall_forall in H. apply H.
  apply in_map_iff. exists (N.to_nat n). split; [apply Nnat.N2Nat.id|].
  apply in_seq. lia.
Qed.

Lemma digit_char_spec (n : N) :
  (n < 10)%N -> is_digit (digit_char n) = true /\ digit_val (digit_char n) = n.
Proof.
  intros H. pattern n. apply (N_range_cases _ 0 10); [|lia].
  repeat constructor.
Qed.

Context {R : Type}.

(** A directive reads back the field [strftime] printed, provided what
    follows is accepted by the rest of the format. *)
Lemma re_m_pad2 (m : N) (k : N -> string -> option R) (r : string) (x : R) :
  (1 <= m <= 12)%N -> k m r = Some x -> re_m k (pad2 m ++ r) = Some x.
Proof.
  intros H. revert k r x. pattern m. apply (N_range_cases _ 1 12); [|lia].
  repeat constructor; intros k r x Hk; cbv in Hk; cbv -[orelse];
    rewrite Hk; reflexivity.
Qed.

Lemma re_d_pad2 (d : N) (k : N -> string -> option R) (r : string) (x : R) :
  (1 <= d <= 31)%N -> k d r = Some x -> re_d k (pad2 d ++ r) = Some x.
Proof.
  intros H. revert k r x. pattern d. apply (N_range_cases _ 1 31); [|lia].
  repeat constructor; intros k r x Hk; cbv in Hk; cbv -[orelse];
    rewrite Hk; reflexivity.
Qed.

Lemma re_y_pad2 (yy : N) (k : N -> string -> option R) (r : string) :
  (yy < 100)%N -> re_y k (pad2 yy ++ r) = k yy r.
Proof.
  intros H. unfold pad2, re_y. cbn [append].
  destruct (digit_char_spec ((yy / 10) mod 10)) as [-> ->]; [lia|].
  destruct (digit_char_spec (yy mod 10)) as [-> ->]; [lia|].
  cbn [andb]. f_equal. lia.
Qed.

Lemma re_Y_pad4 (y : N) (k : N -> string -> option R) (r : string) :
  (y < 10000)%N -> re_Y k (pad4 y ++ r) = k y r.
Proof.
  intros H. unfold pad4, pad2, re_Y. cbn [append].
  destruct (digit_char_spec ((y / 1000) mod 10)) as [-> ->]; [lia|].
  destruct (digit_char_spec ((y / 100) mod 10)) as [-> ->]; [lia|].
  destruct (digit_char_spec ((y / 10) mod 10)) as [-> ->]; [lia|].
  destruct (digit_char_spec (y mod 10)) as [-> ->]; [lia|].
  cbn [andb]. f_equal. lia.
Qed.

End Normalisation.

Section Round_trips.

Lemma append_nil_r (s : string) : s ++ "" = s.
Proof. induction s as [|c s IH]; cbn; [reflexivity|now rewrite IH]. Qed.

Lemma append_assoc (a b c : string) : (a ++ b) ++ c = a ++ b ++ c.
Proof. induction a as [|x a IH]; cbn; [reflexivity|now rewrite IH]. Qed.

(** [strptime] in the format [strftime] printed gives the date back. *)
Lemma strptime_strftime_Ymd (t : datetime) :
  valid_date (year t) (month t) (day t) = true ->
  strptime_Ymd (strftime_Ymd t) = Some t.
Proof.
  destruct t as [y m d]. cbn [year month day]. intros Hv.
  destruct (valid_date_bounds _ _ _ Hv) as (Hy & Hm & Hd).
  unfold strptime_Ymd, strftime_Ymd. cbn [year month day].
  rewrite re_Y_pad4 by lia. cbn [append re_dash].
  rewrite (re_m_pad2 m _ _ (y, m, d, "")); [| lia |].
  - cbn [finish]. now rewrite Hv.
  - cbn [append re_dash]. rewrite <- (append_nil_r (pad2 d)).
    now apply re_d_pad2.
Qed.

Lemma full_year_mod (y : N) :
  (1969 <= y <= 2068)%N -> full_year (y mod 100) = y.
Proof.
  intros H. unfold full_year.
  destruct (y mod 100 <=? 68)%N eqn:E;
    [apply N.leb_le in E | apply N.leb_gt in E]; lia.
Qed.

Lemma strptime_strftime_mdy (t : datetime) :
  two_digit_year_date t -> strptime_mdy (strftime_mdy t) = Some t.
Proof.
  destruct t as [y m d]. unfold two_digit_year_date. cbn [year month day].
  intros [Hv Hy]. destruct (valid_date_bounds _ _ _ Hv) as (_ & Hm & Hd).
  unfold strptime_mdy, strftime_mdy. cbn [year month day].
  rewrite (re_m_pad2 m _ _ (y, m, d, "")); [| lia |].
  - cbn [finish]. now rewrite Hv.
  - cbn [append re_dash]. apply re_d_pad2; [lia|].
    cbn [append re_dash]. rewrite <- (append_nil_r (pad2 (y mod 100))).
    rewrite re_y_pad2 by lia. now rewrite full_year_mod.
Qed.

(** Normalising the display form of a date gives its canonical form, and
    displaying the canonical form gives the display form. *)
Lemma normalise_display (t : datetime) :
  two_digit_year_date t ->
  _validate_date (strftime_mdy t) = Some (strftime_Ymd t)
  /\ _format_date_for_display (strftime_Ymd t) = strftime_mdy t.
Proof.
  intros Ht. unfold _validate_date, _format_date_for_display.
  rewrite (strptime_strftime_mdy t Ht).
  now rewrite (strptime_strftime_Ymd t (proj1 Ht)).
Qed.

End Round_trips.

Section Written_dates.





Context {R : Type}.











End Written_dates.

Section Accepted_strings.


End Accepted_strings.

Section Sortable.

Lemma compare_digit (a b : N) (r1 r2 : string) :
  (a < 10)%N -> (b < 10)%N ->
  String.compare (String (digit_char a) r1) (String (digit_char b) r2)
  = match (a ?= b)%N with
    | Eq => String.compare r1 r2
    | c => c
    end.
Proof.
  intros Ha Hb. revert b Hb. pattern a.
  apply (N_range_cases _ 0 10); [|lia].
  repeat constructor; intros b Hb; pattern b;
    (apply (N_range_cases _ 0 10); [|lia]); repeat constructor.
Qed.

Lemma lex_pair (a1 a0 b1 b0 : N) (X : comparison) :
  (a0 < 10)%N -> (b0 < 10)%N ->
  match (a1 ?= b1)%N with
  | Eq => match (a0 ?= b0)%N with Eq => X | c => c end
  | c => c
  end
  = match (10 * a1 + a0 ?= 10 * b1 + b0)%N with Eq => X | c => c end.
Proof.
  intros Ha Hb.
  destruct (N.compare_spec a1 b1), (N.compare_spec a0 b0),
    (N.compare_spec (10 * a1 + a0) (10 * b1 + b0)); try reflexivity; lia.
Qed.

(** Zero-padded fields of the same width compare as the numbers do. *)
Lemma compare_pad2 (a b : N) (r1 r2 : string) :
  (a < 100)%N -> (b < 100)%N ->
  String.compare (pad2 a ++ r1) (pad2 b ++ r2)
  = match (a ?= b)%N with
    | Eq => String.compare r1 r2
    | c => c
    end.
Proof.
  intros Ha Hb. unfold pad2. cbn [append].
  rewrite compare_digit by lia. rewrite compare_digit by lia.
  rewrite lex_pair by lia.
  replace (10 * (a / 10 mod 10) + a mod 10)%N with a by lia.
  replace (10 * (b / 10 mod 10) + b mod 10)%N with b by lia.
  reflexivity.
Qed.

Lemma pad4_split (y : N) : pad4 y = pad2 (y / 100) ++ pad2 (y mod 100).
Proof.
  unfold pad4, pad2. cbn [append].
  replace (y / 100 / 10 mod 10)%N with (y / 1000 mod 10)%N by lia.
  replace (y mod 100 / 10 mod 10)%N with (y / 10 mod 10)%N by lia.
  replace (y mod 100 mod 10)%N with (y mod 10)%N by lia.
  reflexivity.
Qed.

Lemma compare_pad4 (a b : N) (r1 r2 : string) :
  (a < 10000)%N -> (b < 10000)%N ->
  String.compare (pad4 a ++ r1) (pad4 b ++ r2)
  = match (a ?= b)%N with
    | Eq => String.compare r1 r2
    | c => c
    end.
Proof.
  intros Ha Hb. rewrite !pad4_split.
  rewrite !append_assoc.
  rewrite compare_pad2 by lia. rewrite compare_pad2 by lia.
  destruct (N.compare_spec (a / 100) (b / 100)),
    (N.compare_spec (a mod 100) (b mod 100)),
    (N.compare_spec a b); try reflexivity; lia.
Qed.

(** The canonical form is sortable: canonical strings compare as their
    dates do. *)
Lemma canonical_order (t1 t2 : datetime) :
  valid_date (year t1) (month t1) (day t1) = true ->
  valid_date (year t2) (month t2) (day t2) = true ->
  String.compare (strftime_Ymd t1) (strftime_Ymd t2) = date_compare t1 t2.
Proof.
  intros H1 H2.
  destruct (valid_date_bounds _ _ _ H1) as (Hy1 & Hm1 & Hd1).
  destruct (valid_date_bounds _ _ _ H2) as (Hy2 & Hm2 & Hd2).
  unfold strftime_Ymd, date_compare.
  rewrite compare_pad4 by lia. cbn [append String.compare Ascii.compare].
  change (N_of_ascii "-" ?= N_of_ascii "-")%N with Eq. cbv iota.
  rewrite compare_pad2 by lia. cbn [append String.compare Ascii.compare].
  change (N_of_ascii "-" ?= N_of_ascii "-")%N with Eq. cbv iota.
  rewrite <- (append_nil_r (pad2 (day t1))), <- (append_nil_r (pad2 (day t2))).
  rewrite compare_pad2 by lia.
  now destruct (day t1 ?= day t2)%N.
Qed.

End Sortable.

(** ** What [_validate_date] accepts *)




(** ** Display formatting *)

(** C9, as the spec words it, fails on an accepted string that is not
    zero-padded: "1-5-24" is normalised to "2024-01-05", which is displayed
    as "01-05-24". *)
Lemma display_pads_the_fields :
  _validate_date "1-5-24" = Some "2024-01-05"
  /\ _format_date_for_display "2024-01-05" = "01-05-24"
  /\ _format_date_for_display "2024-01-05" <> "1-5-24".
Proof. repeat split; try reflexivity. discriminate. Qed.

(** C9, amended. For every string [s] that [_validate_date] accepts, the
    display form of the stored canonical date is the zero-padded [MM-DD-YY]
    form of the date [s] denotes; normalising it gives the same canonical
    date; and it is [s] itself exactly when [s] is that zero-padded form. *)
Theorem display_of_normalised_date :
  forall (s iso : string),
    _validate_date s = Some iso ->
    exists t,
      strptime_mdy s = Some t
      /\ _format_date_for_display iso = strftime_mdy t
      /\ _validate_date (_format_date_for_display iso) = Some iso
      /\ (_format_date_for_display iso = s <-> s = strftime_mdy t).
Proof.
  intros s iso. unfold _validate_date at 1.
  destruct (strptime_mdy s) as [t|] eqn:E; [|discriminate].
  intros H; injection H as <-. exists t.
  pose proof (strptime_mdy_date s t E) as Ht.
  destruct (normalise_display t Ht) as [Hn Hd].
  rewrite Hd. repeat split; try assumption; intros; congruence.
Qed.

Lemma display_of_normalised_date_witness :
  exists t,
    strptime_mdy "1-5-24" = Some t
    /\ _format_date_for_display "2024-01-05" = strftime_mdy t
    /\ _validate_date (_format_date_for_display "2024-01-05") = Some "2024-01-05"
    /\ (_format_date_for_display "2024-01-05" = "1-5-24"
        <-> "1-5-24" = strftime_mdy t).
Proof.
  apply (display_of_normalised_date "1-5-24" "2024-01-05"). reflexivity.
Defined.

(** * Floats: what [float] reads back from [repr] *)

Section Powers.
Local Open Scope Q_scope.

Lemma pow2_pos (e : Z) : 0 < pow2 e.
Proof. apply Qpower_0_lt. reflexivity. Qed.


Lemma pow2_add (a b : Z) : pow2 (a + b) == pow2 a * pow2 b.
Proof. apply Qpower_plus. discriminate. Qed.


Lemma pow2_cancel (e : Z) : pow2 (- e) * pow2 e == 1.
Proof. rewrite <- pow2_add. now replace (- e + e)%Z with 0%Z by lia. Qed.


Lemma pow2_succ (e : Z) : pow2 (e + 1) == 2 * pow2 e.
Proof. rewrite pow2_add. unfold pow2 at 2. cbn. ring. Qed.

Lemma pow2_pred (e : Z) : 2 * pow2 (e - 1) == pow2 e.
Proof. rewrite <- pow2_succ. now replace (e - 1 + 1)%Z with e by lia. Qed.

Lemma pow2_le (a b : Z) : (a <= b)%Z -> pow2 a <= pow2 b.
Proof. intros H. apply Qpower_le_compat_l; [exact H|]. discriminate. Qed.

Lemma pow2_lt (a b : Z) : (a < b)%Z -> pow2 a < pow2 b.
Proof. intros H. apply Qpower_lt_compat_l; [exact H|]. reflexivity. Qed.

Lemma pow10_le (a b : Z) : (a <= b)%Z -> pow10 a <= pow10 b.
Proof. intros H. apply Qpower_le_compat_l; [exact H|]. discriminate. Qed.

Lemma pow10_lt (a b : Z) : (a < b)%Z -> pow10 a < pow10 b.
Proof. intros H. apply Qpower_lt_compat_l; [exact H|]. reflexivity. Qed.

Lemma pow2_inject (n : Z) : (0 <= n)%Z -> pow2 n == inject_Z (2 ^ n).
Proof. intros H. unfold pow2. now rewrite Zpower_Qpower. Qed.


(** Moving a power of two across an inequality. *)
Lemma scale_lt (a q : Q) (e : Z) : a * pow2 e < q <-> a < q * pow2 (- e).
Proof.
  pose proof (pow2_pos e) as He. pose proof (pow2_pos (- e)) as Hn.
  pose proof (pow2_cancel e) as Hc. split; intros H.
  - assert (a * pow2 e * pow2 (- e) < q * pow2 (- e)) by now apply Qmult_lt_compat_r.
    assert (E : a * pow2 e * pow2 (- e) == a) by (rewrite <- Qmult_assoc, (Qmult_comm (pow2 e)), Hc; ring).
    now rewrite E in H0.
  - assert (a * pow2 e < q * pow2 (- e) * pow2 e) by now apply Qmult_lt_compat_r.
    assert (E : q * pow2 (- e) * pow2 e == q) by (rewrite <- Qmult_assoc, Hc; ring).
    now rewrite E in H0.
Qed.

Lemma scale_gt (a q : Q) (e : Z) : q < a * pow2 e <-> q * pow2 (- e) < a.
Proof.
  pose proof (pow2_pos e) as He. pose proof (pow2_pos (- e)) as Hn.
  pose proof (pow2_cancel e) as Hc. split; intros H.
  - assert (q * pow2 (- e) < a * pow2 e * pow2 (- e)) by now apply Qmult_lt_compat_r.
    assert (E : a * pow2 e * pow2 (- e) == a) by (rewrite <- Qmult_assoc, (Qmult_comm (pow2 e)), Hc; ring).
    now rewrite E in H0.
  - assert (q * pow2 (- e) * pow2 e < a * pow2 e) by now apply Qmult_lt_compat_r.
    assert (E : q * pow2 (- e) * pow2 e == q) by (rewrite <- Qmult_assoc, Hc; ring).
    now rewrite E in H0.
Qed.

Lemma scale_le (a q : Q) (e : Z) : a * pow2 e <= q <-> a <= q * pow2 (- e).
Proof.
  split; intros H; apply Qnot_lt_le; intros C; apply scale_gt in C;
    apply (Qlt_not_le _ _ C); exact H.
Qed.

End Powers.

Section Nearest_integer.
Local Open Scope Q_scope.

Lemma inject_Z_lt_half (a b : Z) : inject_Z a < inject_Z b + (1 # 2) -> (a <= b)%Z.
Proof. unfold Qlt, inject_Z, Qplus. cbn. lia. Qed.

Lemma inject_Z_succ (a : Z) : inject_Z (a + 1) == inject_Z a + 1.
Proof. rewrite inject_Z_plus. reflexivity. Qed.

Lemma floor_bounds (q : Q) : inject_Z (Qfloor q) <= q < inject_Z (Qfloor q) + 1.
Proof.
  split; [apply Qfloor_le|]. rewrite <- inject_Z_succ. apply Qlt_floor.
Qed.

Lemma floor_unique (q : Q) (f : Z) : inject_Z f <= q < inject_Z f + 1 -> Qfloor q = f.
Proof.
  intros [H1 H2]. destruct (floor_bounds q) as [F1 F2].
  assert (A : inject_Z f < inject_Z (Qfloor q) + 1) by lra.
  assert (B : inject_Z (Qfloor q) < inject_Z f + 1) by lra.
  rewrite <- inject_Z_succ in A, B. rewrite <- Zlt_Qlt in A, B. lia.
Qed.

(** The integer nearest to [q] is [m] when [q] is less than a half away
    from it. *)
Lemma round_half_even_near (q : Q) (m : Z) :
  inject_Z m - (1 # 2) < q < inject_Z m + (1 # 2) -> round_half_even q = m.
Proof.
  intros [H1 H2]. unfold round_half_even.
  destruct (floor_bounds q) as [F1 F2].
  destruct (Qcompare_spec (q - inject_Z (Qfloor q)) (1 # 2)) as [E | E | E].
  - exfalso.
    assert (A : inject_Z (Qfloor q) < inject_Z m) by lra.
    assert (B : inject_Z m < inject_Z (Qfloor q) + 1) by lra.
    rewrite <- inject_Z_succ in B. rewrite <- Zlt_Qlt in A, B. lia.
  - assert (A : inject_Z m < inject_Z (Qfloor q) + 1) by lra.
    assert (B : inject_Z (Qfloor q) < inject_Z m + 1) by lra.
    rewrite <- inject_Z_succ in A, B. rewrite <- Zlt_Qlt in A, B. lia.
  - assert (A : inject_Z (Qfloor q) < inject_Z m) by lra.
    assert (B : inject_Z m < inject_Z (Qfloor q) + 1 + 1) by lra.
    rewrite <- !inject_Z_succ in B. rewrite <- Zlt_Qlt in A, B. lia.
Qed.


Lemma round_half_even_comp (q1 q2 : Q) :
  q1 == q2 -> round_half_even q1 = round_half_even q2.
Proof.
  intros E. unfold round_half_even. rewrite (Qfloor_comp _ _ E).
  now rewrite E.
Qed.

End Nearest_integer.

Section Binary_exponent.
Local Open Scope Q_scope.

Lemma pow2_bracket_unique (q : Q) (z z' : Z) :
  pow2 z <= q < pow2 (z + 1) -> pow2 z' <= q < pow2 (z' + 1) -> z = z'.
Proof.
  intros [A1 A2] [B1 B2].
  assert (z < z' + 1)%Z.
  { apply Z.lt_nge. intros C. apply pow2_le in C. lra. }
  assert (z' < z + 1)%Z.
  { apply Z.lt_nge. intros C. apply pow2_le in C. lra. }
  lia.
Qed.

Lemma ilog2_spec (q : Q) : 0 < q -> pow2 (ilog2 q) <= q < pow2 (ilog2 q + 1).
Proof.
  intros Hq. destruct q as [num den]. unfold ilog2. cbn [Qnum Qden].
  assert (Hnum : (0 < num)%Z).
  { unfold Qlt in Hq. cbn in Hq. lia. }
  set (a := Z.log2 num). set (b := Z.log2 (Zpos den)).
  destruct (Z.log2_spec num Hnum) as [A1 A2]. fold a in A1, A2.
  destruct (Z.log2_spec (Zpos den) eq_refl) as [B1 B2]. fold b in B1, B2.
  assert (Ha : (0 <= a)%Z) by apply Z.log2_nonneg.
  assert (Hb : (0 <= b)%Z) by apply Z.log2_nonneg.
  set (q := num # den) in *.
  assert (E : q * inject_Z (Zpos den) == inject_Z num).
  { unfold q. rewrite (Qmake_Qdiv num den). field. discriminate. }
  rewrite Zle_Qle in A1, B1. rewrite Zlt_Qlt in A2, B2.
  rewrite <- pow2_inject in A1, A2, B1, B2 by lia.
  replace (Z.succ a) with (a + 1)%Z in A2 by lia.
  replace (Z.succ b) with (b + 1)%Z in B2 by lia.
  assert (L1 : q * pow2 b <= q * inject_Z (Zpos den)).
  { rewrite !(Qmult_comm q). apply Qmult_le_compat_r; lra. }
  assert (L2 : q * inject_Z (Zpos den) < q * pow2 (b + 1)).
  { now apply Qmult_lt_l. }
  assert (Lo : pow2 (a - b - 1) < q).
  { replace (a - b - 1)%Z with (a + - (b + 1))%Z by lia. rewrite pow2_add.
    apply scale_lt. replace (- - (b + 1))%Z with (b + 1)%Z by lia. lra. }
  assert (Hi : q < pow2 (a - b + 1)).
  { replace (a - b + 1)%Z with (a + 1 + - b)%Z by lia. rewrite pow2_add.
    apply scale_gt. replace (- - b)%Z with b by lia. lra. }
  destruct (Qle_bool (pow2 (a - b)) q) eqn:Eb.
  - apply Qle_bool_iff in Eb. split; assumption.
  - assert (q < pow2 (a - b)).
    { apply Qnot_le_lt. intros C. apply Qle_bool_iff in C. congruence. }
    replace (a - b - 1 + 1)%Z with (a - b)%Z by lia. split; lra.
Qed.

Lemma ilog2_unique (q : Q) (z : Z) :
  pow2 z <= q < pow2 (z + 1) -> ilog2 q = z.
Proof.
  intros H. apply (pow2_bracket_unique q); [|exact H].
  apply ilog2_spec. pose proof (pow2_pos z). lra.
Qed.

Lemma ilog2_comp (q1 q2 : Q) : 0 < q1 -> q1 == q2 -> ilog2 q1 = ilog2 q2.
Proof.
  intros H E. apply ilog2_unique. rewrite E. apply ilog2_spec. now rewrite <- E.
Qed.

(** Comparing [q] with [2^n * 2^e] is comparing [q / 2^e] with [2^n]. *)
Lemma pow2_shift_le (n e : Z) (q : Q) :
  (0 <= n)%Z -> (pow2 (n + e) <= q <-> inject_Z (2 ^ n) <= q * pow2 (- e)).
Proof.
  intros Hn. rewrite pow2_add, pow2_inject by exact Hn. apply scale_le.
Qed.

Lemma pow2_shift_gt (n e : Z) (q : Q) :
  (0 <= n)%Z -> (q < pow2 (n + e) <-> q * pow2 (- e) < inject_Z (2 ^ n)).
Proof.
  intros Hn. rewrite pow2_add, pow2_inject by exact Hn. apply scale_gt.
Qed.

End Binary_exponent.

Section Rounding.
Local Open Scope Q_scope.

Lemma is_binary64_bounds (s : bool) (m e : Z) :
  is_binary64 (Finite s m e) = true ->
  (0 <= m < 2 ^ 53 /\ -1074 <= e <= 971 /\ (2 ^ 52 <= m \/ e = -1074))%Z.
Proof.
  unfold is_binary64.
  rewrite !andb_true_iff, orb_true_iff, !Z.leb_le, Z.ltb_lt, Z.eqb_eq.
  tauto.
Qed.

Lemma round_magnitude_comp (q1 q2 : Q) :
  q1 == q2 -> round_magnitude q1 = round_magnitude q2.
Proof.
  intros E. unfold round_magnitude.
  rewrite (Qleb_comp _ _ (Qeq_refl (pow2 (-1022))) _ _ E).
  destruct (Qle_bool (pow2 (-1022)) q2) eqn:Eb.
  - apply Qle_bool_iff in Eb.
    assert (H : 0 < q1). { pose proof (pow2_pos (-1022)). rewrite E. lra. }
    rewrite (ilog2_comp q1 q2 H E).
    rewrite (round_half_even_comp (q1 * _) (q2 * pow2 (- (ilog2 q2 - 52)))); [reflexivity|].
    now rewrite E.
  - rewrite (round_half_even_comp (q1 * _) (q2 * pow2 (- -1074))); [reflexivity|].
    now rewrite E.
Qed.

(** A rational strictly inside the rounding interval of a float is
    rounded to that float.  Below a power of two the interval is half as
    wide. *)
Lemma round_magnitude_interior (s : bool) (m e : Z) (q : Q) :
  is_binary64 (Finite s m e) = true ->
  (inject_Z m - (1 # 2)) * pow2 e < q < (inject_Z m + (1 # 2)) * pow2 e ->
  ((m = 2 ^ 52)%Z -> (-1074 < e)%Z -> (inject_Z m - (1 # 4)) * pow2 e < q) ->
  round_magnitude q = (m, e).
Proof.
  intros Hv [Hlo Hhi] Hspec.
  destruct (is_binary64_bounds s m e Hv) as (Hm & He & Hn).
  set (t := q * pow2 (- e)).
  assert (T1 : inject_Z m - (1 # 2) < t) by now apply scale_lt.
  assert (T2 : t < inject_Z m + (1 # 2)) by now apply scale_gt.
  assert (Hm1 : inject_Z 0 <= inject_Z m) by (rewrite <- Zle_Qle; lia).
  assert (Hm2 : inject_Z m <= inject_Z (2 ^ 53 - 1)) by (rewrite <- Zle_Qle; lia).
  change (inject_Z 0) with 0 in Hm1.
  change (inject_Z (2 ^ 53 - 1)) with 9007199254740991 in Hm2.
  unfold round_magnitude.
  destruct (Qle_bool (pow2 (-1022)) q) eqn:Eb.
  - apply Qle_bool_iff in Eb.
    destruct (Qlt_le_dec t (inject_Z (2 ^ 52))) as [Hsmall | Hbig].
    + (* just below a power of two *)
      change (inject_Z (2 ^ 52)) with 4503599627370496 in Hsmall.
      assert (Hm52 : (m <= 2 ^ 52)%Z).
      { apply inject_Z_lt_half. change (inject_Z (2 ^ 52)) with 4503599627370496.
        lra. }
      assert (He' : (-1074 < e)%Z).
      { apply Z.lt_nge. intros C. assert (e = -1074)%Z by lia. subst e.
        assert (inject_Z (2 ^ 52) <= t).
        { apply (pow2_shift_le 52 (-1074)); [lia|exact Eb]. }
        change (inject_Z (2 ^ 52)) with 4503599627370496 in H. lra. }
      assert (Em : m = (2 ^ 52)%Z) by lia.
      specialize (Hspec Em He').
      assert (T3 : inject_Z m - (1 # 4) < t) by now apply scale_lt.
      rewrite Em in T3. change (inject_Z (2 ^ 52)) with 4503599627370496 in T3.
      assert (Hl : ilog2 q = (51 + e)%Z).
      { apply ilog2_unique. split.
        - apply pow2_shift_le; [lia|]. fold t.
          change (inject_Z (2 ^ 51)) with 2251799813685248. lra.
        - replace (51 + e + 1)%Z with (52 + e)%Z by lia.
          apply pow2_shift_gt; [lia|]. fold t.
          change (inject_Z (2 ^ 52)) with 4503599627370496. lra. }
      rewrite Hl.
      assert (Et : q * pow2 (- (51 + e - 52)) == 2 * t).
      { unfold t. replace (- (51 + e - 52))%Z with (- e + 1)%Z by lia.
        rewrite pow2_succ. ring. }
      rewrite (round_half_even_comp _ _ Et).
      rewrite (round_half_even_near (2 * t) (2 ^ 53)).
      * rewrite Z.eqb_refl. f_equal; lia.
      * change (inject_Z (2 ^ 53)) with 9007199254740992. lra.
    + change (inject_Z (2 ^ 52)) with 4503599627370496 in Hbig.
      assert (Hl : ilog2 q = (52 + e)%Z).
      { apply ilog2_unique. split.
        - apply pow2_shift_le; [lia|]. fold t.
          change (inject_Z (2 ^ 52)) with 4503599627370496. lra.
        - replace (52 + e + 1)%Z with (53 + e)%Z by lia.
          apply pow2_shift_gt; [lia|]. fold t.
          change (inject_Z (2 ^ 53)) with 9007199254740992. lra. }
      rewrite Hl. replace (52 + e - 52)%Z with e by lia. fold t.
      rewrite (round_half_even_near t m) by (split; assumption).
      destruct (Z.eqb_spec m (2 ^ 53)); [lia|reflexivity].
  - assert (Hq : q < pow2 (-1022)).
    { apply Qnot_le_lt. intros C. apply Qle_bool_iff in C. congruence. }
    assert (Ee : e = (-1074)%Z).
    { destruct Hn as [Hn | Hn]; [|exact Hn].
      apply Z.le_antisymm; [|lia]. apply Z.le_ngt. intros C.
      assert (Hq' : q < pow2 (51 + e)).
      { apply (Qlt_le_trans _ _ _ Hq), pow2_le. lia. }
      apply pow2_shift_gt in Hq'; [|lia]. fold t in Hq'.
      change (inject_Z (2 ^ 51)) with 2251799813685248 in Hq'.
      assert (inject_Z (2 ^ 52) <= inject_Z m) by (rewrite <- Zle_Qle; lia).
      change (inject_Z (2 ^ 52)) with 4503599627370496 in H. lra. }
    subst e. fold t.
    rewrite (round_half_even_near t m) by (split; assumption).
    destruct (Z.eqb_spec m (2 ^ 53)); [lia|reflexivity].
Qed.

End Rounding.

Section Decimal_exponent.
Local Open Scope Q_scope.






End Decimal_exponent.

Section Shortest_digits.
Local Open Scope Q_scope.


Variables (s : bool) (m e : Z).
Hypothesis Hv : is_binary64 (Finite s m e) = true.
Hypothesis Hm : (0 < m)%Z.

Let q := magnitude m e.
Let p := decimal_point q.








End Shortest_digits.

Section Digit_strings.















Lemma take_length (i : nat) :
  forall s, (i <= String.length s)%nat -> String.length (take i s) = i.
Proof.
  induction i as [|i IH]; intros [|c s] H; cbn in *; try reflexivity; try lia.
  rewrite IH; lia.
Qed.





End Digit_strings.

Section Number_groups.


Lemma signed_value_digit (c : ascii) (r : string) :
  is_digit c = true -> signed_value (String c r) = digits_value (String c r).
Proof.
  intros H. destruct c as [[] [] [] [] [] [] [] []]; try discriminate H;
    reflexivity.
Qed.






End Number_groups.

(** * Persistence: what [json.load] reads back from [json.dump] *)

Section Scanning_strings.






End Scanning_strings.

Section Scanning_numbers.











End Scanning_numbers.

Section Float_texts.





Variables (sign : string) (neg : bool) (n : nat) (c k : Z) (rest : string).
Hypothesis Hsign : sign = "" /\ neg = false \/ sign = "-" /\ neg = true.
Hypothesis Hc : (10 ^ Z.of_nat n <= c < 10 ^ Z.of_nat (S n))%Z.
Hypothesis Hrest : ends_number rest.

Let ds := digits_of (S n) c.
Let decpt := (Z.of_nat (S n) + k)%Z.







End Float_texts.

Section Float_round_trip.



End Float_round_trip.

Section Scanning_values.













Lemma ends_number_newline (t : string) : ends_number (String "010" t).
Proof. repeat split; discriminate. Qed.

End Scanning_values.

Section Scanning_requests.



End Scanning_requests.

Section Scanning_documents.










End Scanning_documents.

(** ** The scanner never runs out of fuel *)

Section Consumption.

Lemma skip_ws_length (s : string) :
  (String.length (skip_ws s) <= String.length s)%nat.
Proof.
  induction s as [|c s IH]; cbn [skip_ws]; [lia|].
  destruct (is_ws c); cbn [String.length]; lia.
Qed.

Lemma bind_Ok {A B : Type} (r : result A) (k : A -> result B) (b : B) :
  bind r k = Ok b -> exists a, r = Ok a /\ k a = Ok b.
Proof. destruct r; try discriminate. intros H. eauto. Qed.

Lemma scanstring_consumes_below (n : nat) :
  forall s str r,
    (String.length s < n)%nat -> scanstring s = Ok (str, r) ->
    (String.length r < String.length s)%nat.
Proof.
  induction n as [|n IH]; intros s str r Hn H; [lia|].
  destruct s as [|c s]; [discriminate|]. cbn [scanstring] in H.
  cbn [String.length] in *.
  destruct (Ascii.eqb c "034"); [injection H as <- <-; lia|].
  destruct (Ascii.eqb c "\").
  - destruct s as [|e s]; [discriminate|]. cbn [String.length] in *.
    destruct (Ascii.eqb e "u") eqn:Eu.
    + apply Ascii.eqb_eq in Eu. subst e.
      destruct s as [|h1 [|h2 [|h3 [|h4 s]]]]; try discriminate.
      destruct (hex_val h1), (hex_val h2), (hex_val h3), (hex_val h4);
        try discriminate.
      destruct (_ && _)%bool; [|discriminate].
      apply bind_Ok in H. destruct H as ([str' r'] & E & H).
      injection H as <- <-. apply IH in E; cbn [String.length] in *; lia.
    + assert (H' : match backslash e with
                   | Some ch =>
                       ' (str0, rest) <- scanstring s ;; Ok (String ch str0, rest)
                   | None => DecodeError
                   end = Ok (str, r)).
      { revert H. destruct e as [[] [] [] [] [] [] [] []]; try discriminate Eu;
          exact (fun H => H). }
      destruct (backslash e); [|discriminate].
      apply bind_Ok in H'. destruct H' as ([str' r'] & E & H').
      injection H' as <- <-. apply IH in E; lia.
  - destruct (code c <? 32)%N; [discriminate|].
    apply bind_Ok in H. destruct H as ([str' r'] & E & H).
    injection H as <- <-. apply IH in E; lia.
Qed.

(** A string literal takes at least its closing quote from the text. *)
Lemma scanstring_consumes (s str r : string) :
  scanstring s = Ok (str, r) -> (String.length r < String.length s)%nat.
Proof. apply (scanstring_consumes_below (S (String.length s))). lia. Qed.

Lemma strip_prefix_length (lit s r : string) :
  strip_prefix lit s = Some r ->
  String.length s = (String.length lit + String.length r)%nat.
Proof.
  revert s; induction lit as [|a lit IH]; intros s; cbn [strip_prefix].
  - intros H; injection H as <-. reflexivity.
  - destruct s as [|b s]; [discriminate|].
    destruct (Ascii.eqb a b); [|discriminate].
    intros H. apply IH in H. cbn [String.length]. lia.
Qed.

Lemma scan_digits_length (s ds r : string) :
  scan_digits s = (ds, r) -> (String.length r <= String.length s)%nat.
Proof.
  revert ds r; induction s as [|c s IH]; intros ds r; cbn [scan_digits].
  - intros H; injection H as <- <-. lia.
  - destruct (is_digit c).
    + destruct (scan_digits s) as [ds' r'] eqn:E.
      intros H; injection H as <- <-. specialize (IH _ _ eq_refl).
      cbn [String.length]. lia.
    + intros H; injection H as <- <-. lia.
Qed.

Lemma match_integer_consumes (s i r : string) :
  match_integer s = Some (i, r) -> (String.length r < String.length s)%nat.
Proof.
  unfold match_integer.
  assert (Hs : forall sign s1,
             (String.length s1 <= String.length s)%nat ->
             match s1 with
             | "" => None
             | String c r0 =>
                 if Ascii.eqb c "0" then Some (sign ++ "0", r0)
                 else if in_range "1" "9" c
                      then let (ds, rest) := scan_digits r0 in
                           Some (sign ++ String c ds, rest)
                      else None
             end = Some (i, r) ->
             (String.length r < String.length s)%nat).
  { intros sign [|c r0] Hl; [discriminate|]. cbn [String.length] in Hl.
    destruct (Ascii.eqb c "0"); [intros H; injection H as <- <-; lia|].
    destruct (in_range "1" "9" c); [|discriminate].
    destruct (scan_digits r0) as [ds rest] eqn:E.
    apply scan_digits_length in E.
    intros H; injection H as <- <-. lia. }
  destruct s as [|c s']; [discriminate|].
  destruct c as [[] [] [] [] [] [] [] []];
    match goal with
    | |- _ -> (_ < String.length (String ?c _))%nat =>
        first [ refine (Hs "-" s' _) | refine (Hs "" (String c s') _) ]
    end;
    cbn [String.length]; lia.
Qed.

Lemma match_frac_length (s f r : string) :
  match_frac s = (f, r) -> (String.length r <= String.length s)%nat.
Proof.
  unfold match_frac. destruct s as [|c [|d s]].
  - intros H; injection H as <- <-. lia.
  - destruct c as [[] [] [] [] [] [] [] []];
      intros H; injection H as <- <-; lia.
  - assert (Hs : (if is_digit d
                  then let (ds, rest) := scan_digits s in
                       (String "." (String d ds), rest)
                  else ("", String c (String d s))) = (f, r) ->
                 (String.length r <= String.length (String c (String d s)))%nat).
    { destruct (is_digit d).
      - destruct (scan_digits s) as [ds rest] eqn:E.
        apply scan_digits_length in E.
        intros H; injection H as <- <-. cbn [String.length]. lia.
      - intros H; injection H as <- <-. lia. }
    destruct c as [[] [] [] [] [] [] [] []];
      try exact Hs; intros H; injection H as <- <-; lia.
Qed.

Lemma match_exp_length (s x r : string) :
  match_exp s = (x, r) -> (String.length r <= String.length s)%nat.
Proof.
  unfold match_exp. intros H.
  repeat break_match; subst;
    repeat match goal with
           | E : (_, _) = (_, _) |- _ => injection E as ? ?; subst
           end;
    repeat match goal with
           | E : scan_digits _ = _ |- _ => apply scan_digits_length in E
           end;
    subst; cbn [String.length] in *; lia.
Qed.

Lemma match_number_consumes (s : string) (v : json) (r : string) :
  match_number s = Some (Ok (v, r)) -> (String.length r < String.length s)%nat.
Proof.
  unfold match_number.
  destruct (match_integer s) as [[i s1]|] eqn:Ei; [|discriminate].
  destruct (match_frac s1) as [f s2] eqn:Ef.
  destruct (match_exp s2) as [x s3] eqn:Ex.
  apply match_integer_consumes in Ei. apply match_frac_length in Ef.
  apply match_exp_length in Ex.
  destruct f, x; try destruct (_ <? _)%Z; try discriminate;
    intros H; injection H as <- <-; lia.
Qed.

(** Case analysis on the first character of a text, keeping only the
    characters for which the hypothesis [H] can hold. *)
Ltac head_cases c H :=
  destruct c as [[] [] [] [] [] [] [] []]; try discriminate H.

(** Every value the scanner reads takes at least one character. *)
Lemma scan_consumes (n : nat) :
  (forall depth s v r, scan_once n depth s = Ok (v, r) ->
                       (String.length r < String.length s)%nat)
  /\ (forall depth s pairs v r, object_loop n depth s pairs = Ok (v, r) ->
                                (String.length r < String.length s)%nat)
  /\ (forall depth s values v r, array_loop n depth s values = Ok (v, r) ->
                                 (String.length r < String.length s)%nat).
Proof.
  induction n as [|n (IHs & IHo & IHa)]; [repeat split; discriminate|].
  split; [|split].
  - intros depth s v r H. destruct s as [|c rest]; [discriminate|].
    cbn [scan_once] in H. cbn [String.length].
    destruct (Ascii.eqb c "034").
    { apply bind_Ok in H. destruct H as ([str r'] & E & H).
      injection H as <- <-. apply scanstring_consumes in E. lia. }
    pose proof (skip_ws_length rest) as Hws.
    destruct (Ascii.eqb c "{").
    { destruct depth as [|inner]; [discriminate|].
      destruct (skip_ws rest) as [|c' r'] eqn:E; [discriminate|].
      cbn [String.length] in Hws.
      head_cases c' H;
        [injection H as <- <-; lia | apply IHo in H; lia]. }
    destruct (Ascii.eqb c "[").
    { destruct depth as [|inner]; [discriminate|].
      destruct (skip_ws rest) as [|c' r'] eqn:E.
      - apply IHa in H. cbn [String.length] in H. lia.
      - cbn [String.length] in Hws.
        destruct (Ascii.eqb c' "]") eqn:Ec.
        + apply Ascii.eqb_eq in Ec. subst c'. injection H as <- <-. lia.
        + assert (H' : array_loop n inner (String c' r') [] = Ok (v, r)).
          { revert H. head_cases c' Ec; exact (fun H => H). }
          apply IHa in H'. cbn [String.length] in H'. lia. }
    change (S (String.length rest)) with (String.length (String c rest)).
    destruct (strip_prefix "null" (String c rest)) eqn:E1.
    { injection H as <- <-. apply strip_prefix_length in E1.
      cbn [String.length] in *. lia. }
    destruct (strip_prefix "true" (String c rest)) eqn:E2.
    { injection H as <- <-. apply strip_prefix_length in E2.
      cbn [String.length] in *. lia. }
    destruct (strip_prefix "false" (String c rest)) eqn:E3.
    { injection H as <- <-. apply strip_prefix_length in E3.
      cbn [String.length] in *. lia. }
    destruct (match_number (String c rest)) as [res|] eqn:E4.
    { subst res. now apply match_number_consumes in E4. }
    destruct (strip_prefix "NaN" (String c rest)) eqn:E5.
    { injection H as <- <-. apply strip_prefix_length in E5.
      cbn [String.length] in *. lia. }
    destruct (strip_prefix "Infinity" (String c rest)) eqn:E6.
    { injection H as <- <-. apply strip_prefix_length in E6.
      cbn [String.length] in *. lia. }
    destruct (strip_prefix "-Infinity" (String c rest)) eqn:E7;
      [|discriminate].
    injection H as <- <-. apply strip_prefix_length in E7.
    cbn [String.length] in *. lia.
  - intros depth s pairs v r H. cbn [object_loop] in H.
    apply bind_Ok in H. destruct H as ([key s1] & E & H).
    apply scanstring_consumes in E.
    pose proof (skip_ws_length s1) as Hw1.
    destruct (skip_ws s1) as [|c1 s2]; [discriminate|].
    cbn [String.length] in Hw1. head_cases c1 H.
    apply bind_Ok in H. destruct H as ([value s3] & E3 & H).
    apply IHs in E3. pose proof (skip_ws_length s2) as Hw2.
    pose proof (skip_ws_length s3) as Hw3.
    destruct (skip_ws s3) as [|c3 s4]; [discriminate|].
    cbn [String.length] in Hw3. head_cases c3 H.
    + injection H as <- <-. lia.
    + pose proof (skip_ws_length s4) as Hw4.
      destruct (skip_ws s4) as [|c4 s5]; [discriminate|].
      cbn [String.length] in Hw4. head_cases c4 H.
      apply IHo in H. lia.
  - intros depth s values v r H. cbn [array_loop] in H.
    apply bind_Ok in H. destruct H as ([value s1] & E & H).
    apply IHs in E. pose proof (skip_ws_length s1) as Hw1.
    destruct (skip_ws s1) as [|c1 s2]; [discriminate|].
    cbn [String.length] in Hw1. head_cases c1 H.
    + injection H as <- <-. lia.
    + pose proof (skip_ws_length s2) as Hw2. apply IHa in H. lia.
Qed.

End Consumption.

Section Fuel.

Lemma bind_fuel {A B : Type} (r : result A) (k : A -> result B) :
  r <> OutOfFuel -> (forall a, r = Ok a -> k a <> OutOfFuel) ->
  bind r k <> OutOfFuel.
Proof. destruct r; cbn; auto; discriminate. Qed.

Lemma scanstring_fuel_below (n : nat) :
  forall s, (String.length s < n)%nat -> scanstring s <> OutOfFuel.
Proof.
  induction n as [|n IH]; intros s Hn; [lia|].
  destruct s as [|c s]; [discriminate|]. cbn [scanstring String.length] in *.
  destruct (Ascii.eqb c "034"); [discriminate|].
  destruct (Ascii.eqb c "\").
  - destruct s as [|e s]; [discriminate|]. cbn [String.length] in *.
    destruct (Ascii.eqb e "u") eqn:Eu.
    + apply Ascii.eqb_eq in Eu. subst e.
      destruct s as [|h1 [|h2 [|h3 [|h4 s]]]]; try discriminate.
      destruct (hex_val h1), (hex_val h2), (hex_val h3), (hex_val h4);
        try discriminate.
      destruct (_ && _)%bool; [|discriminate].
      apply bind_fuel; [apply IH; cbn [String.length] in *; lia|].
      intros [str r] _. discriminate.
    + assert (H : match backslash e with
                  | Some ch =>
                      ' (str0, rest) <- scanstring s ;; Ok (String ch str0, rest)
                  | None => DecodeError
                  end <> OutOfFuel).
      { destruct (backslash e); [|discriminate].
        apply bind_fuel; [apply IH; lia|]. intros [str r] _. discriminate. }
      revert H. destruct e as [[] [] [] [] [] [] [] []]; try discriminate Eu;
        exact (fun H => H).
  - destruct (code c <? 32)%N; [discriminate|].
    apply bind_fuel; [apply IH; lia|]. intros [str r] _. discriminate.
Qed.

(** [scanstring] recurses on the text and needs no fuel. *)
Lemma scanstring_fuel (s : string) : scanstring s <> OutOfFuel.
Proof. apply (scanstring_fuel_below (S (String.length s))). lia. Qed.

Lemma match_number_fuel (s : string) (res : result (json * string)) :
  match_number s = Some res -> res <> OutOfFuel.
Proof.
  unfold match_number. destruct (match_integer s) as [[i s1]|]; [|discriminate].
  destruct (match_frac s1) as [f s2]. destruct (match_exp s2) as [x s3].
  destruct f, x; try destruct (_ <? _)%Z; intros H; injection H as <-;
    discriminate.
Qed.

(** Fuel of twice the length of the text, and one or two more, is enough
    for the scanner and its two loops. *)
Lemma scan_fuel (n : nat) :
  (forall depth s, (2 * String.length s + 1 <= n)%nat ->
                   scan_once n depth s <> OutOfFuel)
  /\ (forall depth s pairs, (2 * String.length s + 1 <= n)%nat ->
                            object_loop n depth s pairs <> OutOfFuel)
  /\ (forall depth s values, (2 * String.length s + 2 <= n)%nat ->
                             array_loop n depth s values <> OutOfFuel).
Proof.
  induction n as [|n (IHs & IHo & IHa)]; [repeat split; intros; lia|].
  destruct (scan_consumes n) as (Cs & _ & _).
  split; [|split].
  - intros depth s Hn. destruct s as [|c rest]; [discriminate|].
    cbn [scan_once]. cbn [String.length] in Hn.
    destruct (Ascii.eqb c "034").
    { apply bind_fuel; [apply scanstring_fuel|].
      intros [str r] _. discriminate. }
    pose proof (skip_ws_length rest) as Hws.
    destruct (Ascii.eqb c "{").
    { destruct depth as [|inner]; [discriminate|].
      destruct (skip_ws rest) as [|c' r'] eqn:E; [discriminate|].
      cbn [String.length] in Hws.
      destruct c' as [[] [] [] [] [] [] [] []]; try discriminate.
      apply IHo. lia. }
    destruct (Ascii.eqb c "[").
    { destruct depth as [|inner]; [discriminate|].
      destruct (skip_ws rest) as [|c' r'] eqn:E.
      - apply IHa. cbn [String.length]. lia.
      - assert (H : array_loop n inner (String c' r') [] <> OutOfFuel).
        { apply IHa. lia. }
        revert H. destruct c' as [[] [] [] [] [] [] [] []];
          try exact (fun H => H). discriminate. }
    destruct (strip_prefix "null" (String c rest)); [discriminate|].
    destruct (strip_prefix "true" (String c rest)); [discriminate|].
    destruct (strip_prefix "false" (String c rest)); [discriminate|].
    destruct (match_number (String c rest)) as [res|] eqn:E4;
      [now apply (match_number_fuel _ _ E4)|].
    destruct (strip_prefix "NaN" (String c rest)); [discriminate|].
    destruct (strip_prefix "Infinity" (String c rest)); [discriminate|].
    destruct (strip_prefix "-Infinity" (String c rest)); discriminate.
  - intros depth s pairs Hn. cbn [object_loop].
    apply bind_fuel; [apply scanstring_fuel|].
    intros [key s1] E. apply scanstring_consumes in E.
    pose proof (skip_ws_length s1) as Hw1.
    destruct (skip_ws s1) as [|c1 s2]; [discriminate|].
    cbn [String.length] in Hw1.
    destruct c1 as [[] [] [] [] [] [] [] []]; try discriminate.
    pose proof (skip_ws_length s2) as Hw2.
    apply bind_fuel; [apply IHs; lia|].
    intros [value s3] E3. apply Cs in E3.
    pose proof (skip_ws_length s3) as Hw3.
    destruct (skip_ws s3) as [|c3 s4]; [discriminate|].
    cbn [String.length] in Hw3.
    destruct c3 as [[] [] [] [] [] [] [] []]; try discriminate.
    pose proof (skip_ws_length s4) as Hw4.
    destruct (skip_ws s4) as [|c4 s5]; [discriminate|].
    cbn [String.length] in Hw4.
    destruct c4 as [[] [] [] [] [] [] [] []]; try discriminate.
    apply IHo. lia.
  - intros depth s values Hn. cbn [array_loop].
    apply bind_fuel; [apply IHs; lia|].
    intros [value s1] E. apply Cs in E.
    pose proof (skip_ws_length s1) as Hw1.
    destruct (skip_ws s1) as [|c1 s2]; [discriminate|].
    cbn [String.length] in Hw1.
    destruct c1 as [[] [] [] [] [] [] [] []]; try discriminate.
    pose proof (skip_ws_length s2) as Hw2. apply IHa. lia.
Qed.

(** [json.load] terminates on every text: the fuel [loads] starts the
    scanner with is never used up. *)
Lemma loads_fuel (depth : nat) (s : string) : loads depth s <> OutOfFuel.
Proof.
  unfold loads. apply bind_fuel.
  - apply (proj1 (scan_fuel _)). pose proof (skip_ws_length s). lia.
  - intros [obj rest] _. destruct (skip_ws rest); discriminate.
Qed.

End Fuel.

Section Round_trip.







(** Only the dict of a document is read as that document. *)
Lemma request_of_json_inv (j : json) (r : Request) :
  request_of_json j = Some r -> j = request_json r.
Proof.
  unfold request_of_json. intros H.
  repeat match type of H with
         | context [match ?e with _ => _ end] =>
             destruct e eqn:?; try discriminate H
         end.
  injection H as <-. subst.
  repeat match goal with
         | E : (_ && _)%bool = true |- _ =>
             apply andb_true_iff in E; destruct E
         | E : (_ =? _)%string = true |- _ => apply String.eqb_eq in E; subst
         end.
  reflexivity.
Qed.

Lemma requests_of_json_inv (l : list json) :
  forall rs, requests_of_json l = Some rs -> l = map request_json rs.
Proof.
  induction l as [|j l IH]; intros rs; cbn [requests_of_json].
  - intros H; injection H as <-. reflexivity.
  - destruct (request_of_json j) as [r|] eqn:Er; [|discriminate].
    destruct (requests_of_json l) as [rs'|]; [|discriminate].
    intros H; injection H as <-. cbn [map].
    now rewrite (request_of_json_inv _ _ Er), (IH rs' eq_refl).
Qed.

Lemma document_of_json_inv (j : json) (d : Document) :
  document_of_json j = Some d -> j = document_json d.
Proof.
  unfold document_of_json. intros H.
  repeat match type of H with
         | context [match ?e with _ => _ end] =>
             destruct e eqn:?; try discriminate H
         end.
  injection H as <-. subst.
  repeat match goal with
         | E : (_ && _)%bool = true |- _ =>
             apply andb_true_iff in E; destruct E
         | E : (_ =? _)%string = true |- _ => apply String.eqb_eq in E; subst
         | E : requests_of_json _ = Some _ |- _ =>
             apply requests_of_json_inv in E; subst
         end.
  unfold document_json. cbn [yearly_pto_hours used_pto_hours pto_requests].
  repeat f_equal.
  match goal with
  | E : number_of_json ?y = Some ?a |- _ =>
      destruct y; try discriminate E; injection E as <-; reflexivity
  end.
Qed.




End Round_trip.




(** ** Loading a missing or damaged file *)

(** C8, as the spec words it, fails for a file that exists and cannot be
    read, and for a corrupt text on which [json.load] raises something
    else than [JSONDecodeError]: only that exception is caught, so the
    error of [open] or of decoding the bytes, the [RecursionError] of a text
    that opens more containers than the interpreter has room for, and the
    [ValueError] of an integer literal of more than 4300 digits all leave
    [_load_data]. *)
Lemma unreadable_file_is_fatal :
  (forall depth, _load_data depth Unreadable = Raised
                 /\ init depth Unreadable = Crashed)
  /\ loads 1000 (times "[" 1001) = Raises RecursionError
  /\ init 1000 (Text (times "[" 1001)) = Crashed
  /\ loads 1000 (times "1" 4301) = Raises ValueError
  /\ init 1000 (Text (times "1" 4301)) = Crashed.
Proof.
  split; [intros depth; split; reflexivity|].
  repeat split; now vm_compute.
Qed.

(** Every file is one of four cases for [_load_data]. *)
Lemma load_data_cases (depth : nat) (f : file_state) :
  (_load_data depth f = Returned (document_json default_document)
   <-> f = Missing
       \/ exists contents,
            f = Text contents
            /\ (loads depth contents = DecodeError
                \/ loads depth contents = Ok (document_json default_document)))
  /\ (_load_data depth f = Raised
      <-> f = Unreadable
          \/ exists contents e,
               f = Text contents /\ loads depth contents = Raises e).
Proof.
  pose proof (loads_fuel depth) as Hf.
  destruct f as [| |contents]; cbn [_load_data].
  - split; split; auto; try discriminate.
    intros [H | (c & e & H & _)]; discriminate H.
  - split; split; auto; try discriminate.
    intros [H | (c & H & _)]; discriminate H.
  - specialize (Hf contents).
    destruct (loads depth contents) as [doc | | e | |] eqn:E;
      try contradiction.
    all: split; split; intros H.
    all: try discriminate H.
    all: try (injection H as ->).
    all: try reflexivity.
    all: try (right; eexists; split; [reflexivity|]; auto; fail).
    all: try (right; eexists; eexists; split; [reflexivity|]; eauto; fail).
    all: try (destruct H as [H | (c & H & [H' | H'])]; [discriminate H|..];
              injection H as <-; congruence).
    all: try (destruct H as [H | (c & e' & H & H')]; [discriminate H|];
              injection H as <-; congruence).
Qed.

(** C8, amended. For a missing file, and for a file whose text [json.load]
    rejects with [JSONDecodeError], [_load_data] returns the default
    document: allowance 0, used hours 0, no requests, and the manager
    starts with it.  The only other files it returns the default document
    for hold that very document, and the files it fails on are the
    unreadable ones and the texts on which [json.load] raises another
    exception. *)
Theorem load_data_defaults :
  forall (depth : nat) (f : file_state),
    (f = Missing \/ exists contents, f = Text contents
                                     /\ loads depth contents = DecodeError) ->
    _load_data depth f = Returned (document_json default_document)
    /\ init depth f = Running (mkPTOManager (mkDocument 0 0 []) f)
    /\ (forall f',
          _load_data depth f' = Returned (document_json default_document)
          <-> f' = Missing
              \/ exists contents,
                   f' = Text contents
                   /\ (loads depth contents = DecodeError
                       \/ loads depth contents
                          = Ok (document_json default_document)))
    /\ (forall f',
          _load_data depth f' = Raised
          <-> f' = Unreadable
              \/ exists contents e,
                   f' = Text contents /\ loads depth contents = Raises e).
Proof.
  intros depth f Hf.
  assert (H : _load_data depth f = Returned (document_json default_document)).
  { destruct Hf as [-> | (contents & -> & Hc)]; [reflexivity|].
    cbn [_load_data]. now rewrite Hc. }
  split; [exact H|]. split; [unfold init; now rewrite H|].
  split; intros f'; apply (load_data_cases depth f').
Qed.

Lemma load_data_defaults_witness :
  _load_data 1000 (Text "{ yearly_pto_hours: 80")
  = Returned (document_json default_document)
  /\ init 1000 (Text "{ yearly_pto_hours: 80")
     = Running (mkPTOManager (mkDocument 0 0 [])
                  (Text "{ yearly_pto_hours: 80")).
Proof.
  assert (H : Text "{ yearly_pto_hours: 80" = Missing
              \/ exists contents,
                   Text "{ yearly_pto_hours: 80" = Text contents
                   /\ loads 1000 contents = DecodeError).
  { right. eexists. split; reflexivity. }
  destruct (load_data_defaults 1000 (Text "{ yearly_pto_hours: 80") H)
    as (H1 & H2 & _).
  split; [exact H1 | exact H2].
Defined.

(** * Further properties of the operations *)

(** ** Outcomes of add, edit and remove *)

Section Lookup.

Lemma find_date_absent (d : string) (l : list Request) :
  (forall r, In r l -> date r <> d) -> find_date d l = None.
Proof.
  induction l as [|x l IH]; intros H; [reflexivity|]. cbn [find_date].
  destruct (String.eqb_spec (date x) d) as [E | _].
  - now elim (H x (or_introl eq_refl)).
  - rewrite IH; [reflexivity|]. intros r Hr. apply H. now right.
Qed.

Lemma existsb_date_absent (d : string) (l : list Request) :
  (forall r, In r l -> date r <> d) ->
  existsb (fun request => (date request =? d)%string) l = false.
Proof.
  intros H. apply not_true_is_false. intros E.
  apply existsb_exists in E. destruct E as (r & Hr & E).
  apply String.eqb_eq in E. now apply (H r Hr).
Qed.

(** The loop stops at the first request with the date: those before it
    have other dates. *)
Lemma find_date_first (d : string) (l : list Request) (i : nat) (r : Request) :
  find_date d l = Some (i, r) ->
  forall x, In x (firstn i l) -> date x <> d.
Proof.
  revert i; induction l as [|y l IH]; intros i; cbn [find_date]; [discriminate|].
  destruct (String.eqb_spec (date y) d) as [E | E].
  - intros H; injection H as <- <-. cbn. tauto.
  - destruct (find_date d l) as [[j r']|]; [|discriminate].
    intros H; injection H as <- <-. cbn [firstn]. intros x [<- | Hx]; [assumption|].
    now apply (IH j).
Qed.

Lemma remove_absent (self : PTOManager) (date_str normalized_date : string) :
  _validate_date date_str = Some normalized_date ->
  (forall r, In r (pto_requests (data self)) -> date r <> normalized_date) ->
  remove_pto_request date_str self
  = (self, NotFound (_format_date_for_display normalized_date)).
Proof.
  intros Hv Habs. unfold remove_pto_request. normalise Hv.
  now rewrite (find_date_absent _ _ Habs).
Qed.

End Lookup.

(** X1. Removing a date that no request has prints the not-found message
    and returns the manager as it was, storage file included. *)
Theorem remove_absent_date_not_found :
  forall (self : PTOManager) (date_str normalized_date : string),
    _validate_date date_str = Some normalized_date ->
    (forall r, In r (pto_requests (data self)) -> date r <> normalized_date) ->
    remove_pto_request date_str self
    = (self, NotFound (_format_date_for_display normalized_date)).
Proof.
  intros self d n. apply remove_absent.
Qed.

Lemma remove_absent_date_not_found_witness :
  let self := mkPTOManager
                (mkDocument 80 8 [mkRequest "2024-01-15" false 8 ""]) Missing in
  remove_pto_request "03-01-24" self = (self, NotFound "03-01-24").
Proof.
  intros self.
  apply (remove_absent_date_not_found self "03-01-24" "2024-03-01" eq_refl).
  intros r [<- | []]. discriminate.
Defined.

(** X2. Editing a date that no request has prints the not-found message
    and returns the manager as it was, whatever new values are passed,
    provided the new date, if one is supplied, can be parsed. *)
Theorem edit_absent_date_not_found :
  forall (self : PTOManager) (date_str normalized_date : string)
         (new_date : option string) (half : option bool)
         (note_opt : option string),
    _validate_date date_str = Some normalized_date ->
    (truthy new_date = true ->
     exists s n, new_date = Some s /\ _validate_date s = Some n) ->
    (forall r, In r (pto_requests (data self)) -> date r <> normalized_date) ->
    edit_pto_request date_str new_date half note_opt self
    = (self, NotFound (_format_date_for_display normalized_date)).
Proof.
  intros self d n nd half note_opt Hv Hnd Habs.
  unfold edit_pto_request. normalise Hv.
  destruct (truthy nd) eqn:Et.
  - destruct (Hnd eq_refl) as (s & n' & -> & Hs). normalise Hs. cbn [andb].
    now rewrite (find_date_absent _ _ Habs).
  - cbn [andb]. now rewrite (find_date_absent _ _ Habs).
Qed.

Lemma edit_absent_date_not_found_witness :
  let self := mkPTOManager
                (mkDocument 80 8 [mkRequest "2024-01-15" false 8 ""]) Missing in
  edit_pto_request "03-01-24" (Some "03-02-24") (Some true) None self
  = (self, NotFound "03-01-24").
Proof.
  intros self.
  apply (edit_absent_date_not_found self "03-01-24" "2024-03-01").
  - reflexivity.
  - intros _. now exists "03-02-24", "2024-03-02".
  - intros r [<- | []]. discriminate.
Defined.

(** X3. A date string that cannot be parsed makes [remove_pto_request]
    print the invalid-date message and return the manager as it was. *)
Theorem remove_unparseable_date_rejected :
  forall (self : PTOManager) (date_str : string),
    _validate_date date_str = None ->
    remove_pto_request date_str self = (self, InvalidDate).
Proof.
  intros self d Hv. unfold remove_pto_request. now rewrite Hv.
Qed.

Lemma remove_unparseable_date_rejected_witness :
  let self := mkPTOManager
                (mkDocument 80 8 [mkRequest "2024-01-15" false 8 ""]) Missing in
  remove_pto_request "13-45-99" self = (self, InvalidDate).
Proof.
  intros self. apply (remove_unparseable_date_rejected self "13-45-99" eq_refl).
Defined.





(** ** What every reachable manager satisfies *)

Section Reached.




Lemma run_app (ops1 ops2 : list op) (self : PTOManager) :
  run (ops1 ++ ops2) self = run ops2 (run ops1 self).
Proof. unfold run. apply fold_left_app. Qed.

(** A property of managers that holds for the default document and that
    each operation keeps holds for every reachable manager. *)
Lemma reached_ind (P : PTOManager -> Prop) :
  (forall f, P (mkPTOManager default_document f)) ->
  (forall o self, P self -> P (fst (step o self))) ->
  forall self, reached self -> P self.
Proof.
  intros H0 Hstep self (ops & f & ->).
  generalize (H0 f). generalize (mkPTOManager default_document f).
  induction ops as [|o ops IH]; intros s Hs; [exact Hs|].
  cbn [run fold_left]. apply IH, Hstep, Hs.
Qed.

Lemma validate_created (s iso : string) :
  _validate_date s = Some iso ->
  exists t, two_digit_year_date t /\ iso = strftime_Ymd t.
Proof.
  unfold _validate_date.
  destruct (strptime_mdy s) as [t|] eqn:E; [|discriminate].
  intros H; injection H as <-. exists t.
  split; [now apply (strptime_mdy_date s)|reflexivity].
Qed.

Lemma Forall_insert (P : Request -> Prop) (x : Request) (l : list Request) :
  P x -> Forall P l -> Forall P (insert_by_date x l).
Proof.
  intros Hx Hl. apply (Permutation_Forall (insert_permutation x l)).
  now constructor.
Qed.

Lemma Forall_sort (P : Request -> Prop) (l : list Request) :
  Forall P l -> Forall P (sort_by_date l).
Proof. apply Permutation_Forall, sort_permutation. Qed.

Lemma Forall_firstn (P : Request -> Prop) (i : nat) (l : list Request) :
  Forall P l -> Forall P (firstn i l).
Proof.
  intros H. rewrite Forall_forall in *. intros x Hx.
  apply H. rewrite <- (firstn_skipn i l). apply in_or_app. now left.
Qed.

Lemma Forall_skipn (P : Request -> Prop) (i : nat) (l : list Request) :
  Forall P l -> Forall P (skipn i l).
Proof.
  intros H. rewrite Forall_forall in *. intros x Hx.
  apply H. rewrite <- (firstn_skipn i l). apply in_or_app. now right.
Qed.

Lemma Forall_pop (P : Request -> Prop) (i : nat) (l : list Request) :
  Forall P l -> Forall P (pop i l).
Proof.
  intros H. unfold pop. apply Forall_app.
  split; [now apply Forall_firstn | now apply Forall_skipn].
Qed.

Lemma Forall_set_item (P : Request -> Prop) (i : nat) (r : Request)
      (l : list Request) :
  P r -> Forall P l -> Forall P (set_item i r l).
Proof.
  intros Hr H. unfold set_item. apply Forall_app.
  split; [now apply Forall_firstn|].
  constructor; [assumption | now apply Forall_skipn].
Qed.

Lemma find_date_In (d : string) (l : list Request) (i : nat) (r : Request) :
  find_date d l = Some (i, r) -> In r l.
Proof.
  intros H. destruct (find_date_split _ _ _ _ H) as [Hl _].
  rewrite Hl. apply in_elt.
Qed.

Lemma apply_edit_created (nd : option string) (half : option bool)
      (note_opt : option string) (r : Request) :
  (forall n, nd = Some n ->
             exists t, two_digit_year_date t /\ n = strftime_Ymd t) ->
  created_request r -> created_request (apply_edit nd half note_opt r).
Proof.
  intros Hnd [Hdate Hhours]. unfold apply_edit, created_request.
  destruct nd as [n|], half as [b|], note_opt as [m|];
    cbn [date hours is_half_day]; split; auto; apply (Hnd n eq_refl).
Qed.

Lemma step_created (o : op) (self : PTOManager) :
  Forall created_request (pto_requests (data self)) ->
  Forall created_request (pto_requests (data (fst (step o self)))).
Proof.
  intros H. destruct o as [d h n | d nd h n | d | hrs]; cbn [step].
  - unfold add_pto_request.
    destruct (_validate_date d) as [iso|] eqn:Hv; [|exact H].
    rewrite (validate_truthy _ _ Hv). cbn [negb].
    destruct (existsb _ _); [exact H|].
    unfold _save_data. cbn [fst data pto_requests].
    apply Forall_sort, Forall_app. split; [exact H|].
    constructor; [|constructor]. split; [|reflexivity].
    cbn [date]. exact (validate_created _ _ Hv).
  - unfold edit_pto_request.
    destruct (negb (truthy (_validate_date d))); [exact H|].
    destruct (truthy nd && _) eqn:Eb; [exact H|].
    destruct (find_date _ _) as [[i r]|] eqn:Hf; [|exact H].
    unfold _save_data. cbn [fst data pto_requests].
    apply Forall_sort, Forall_set_item; [|exact H].
    apply apply_edit_created.
    + intros n0 Hn0. destruct (truthy nd); [|discriminate].
      now apply (validate_created _ _ Hn0).
    + rewrite Forall_forall in H. apply H, (find_date_In _ _ _ _ Hf).
  - unfold remove_pto_request.
    destruct (negb (truthy (_validate_date d))); [exact H|].
    destruct (find_date _ _) as [[i r]|] eqn:Hf; [|exact H].
    unfold _save_data. cbn [fst data pto_requests]. now apply Forall_pop.
  - exact H.
Qed.

Lemma reached_created (self : PTOManager) :
  reached self -> Forall created_request (pto_requests (data self)).
Proof.
  apply (reached_ind (fun s => Forall created_request (pto_requests (data s)))).
  - intros f. constructor.
  - apply step_created.
Qed.

Lemma reached_sorted (self : PTOManager) :
  reached self -> sorted_by_date (pto_requests (data self)).
Proof.
  apply (reached_ind (fun s => sorted_by_date (pto_requests (data s)))).
  - intros f. constructor.
  - intros o s Hs. revert Hs. destruct o as [d h n | d nd h n | d | hrs]; cbn [step].
    + unfold add_pto_request.
      destruct (negb (truthy (_validate_date d))); [easy|].
      destruct (existsb _ _); [easy|]. intros _. apply sort_sorted.
    + unfold edit_pto_request.
      destruct (negb (truthy (_validate_date d))); [easy|].
      destruct (_ && _); [easy|].
      destruct (find_date _ _) as [[i r]|] eqn:Hf; [|easy].
      intros _. apply sort_sorted.
    + unfold remove_pto_request.
      destruct (negb (truthy (_validate_date d))); [easy|].
      destruct (find_date _ _) as [[i r]|] eqn:Hf; [|easy].
      intros Hs. apply (pop_sorted _ _ _ _ Hf Hs).
    + easy.
Qed.

Lemma reached_in_sync (self : PTOManager) : reached self -> in_sync self.
Proof.
  apply (reached_ind in_sync); [reflexivity|]. apply step_in_sync.
Qed.

End Reached.



(** X7. Every request of a manager reached from the default document is
    as the operations create them: its date key is the canonical
    [YYYY-MM-DD] form of a valid calendar date of 1969..2068, and its hours
    are 4 when it is a half day and 8 when it is not. *)
Theorem reached_requests_are_created :
  forall (ops : list op) (f : file_state),
    Forall created_request
      (pto_requests (data (run ops (mkPTOManager default_document f)))).
Proof.
  intros ops f. apply reached_created. now exists ops, f.
Qed.

Section Totals.

Lemma sum_hours_bounds (l : list Request) :
  Forall created_request l ->
  (4 * Z.of_nat (List.length l) <= sum_hours l <= 8 * Z.of_nat (List.length l))%Z.
Proof.
  induction 1 as [|r l [_ Hr] _ IH]; [cbn; lia|].
  rewrite sum_hours_cons. cbn [List.length]. rewrite Hr.
  destruct (is_half_day r); lia.
Qed.

Lemma sum_hours_mod4 (l : list Request) :
  Forall created_request l -> (sum_hours l mod 4 = 0)%Z.
Proof.
  induction 1 as [|r l [_ Hr] _ IH]; [reflexivity|].
  rewrite sum_hours_cons, Hr. destruct (is_half_day r); lia.
Qed.

End Totals.

(** X8. In a manager reached from the default document holding [n]
    requests, the used hours lie between [4 n] and [8 n] and are a multiple
    of 4; in particular they are never negative. *)
Theorem used_hours_bounds :
  forall (ops : list op) (f : file_state),
    let self := run ops (mkPTOManager default_document f) in
    let n := Z.of_nat (List.length (pto_requests (data self))) in
    (4 * n <= used_pto_hours (data self) <= 8 * n)%Z
    /\ (used_pto_hours (data self) mod 4 = 0)%Z.
Proof.
  intros ops f self n.
  assert (Hr : reached self) by now exists ops, f.
  pose proof (reached_in_sync self Hr) as Hs. unfold in_sync in Hs.
  pose proof (reached_created self Hr) as Hc.
  rewrite Hs. split; [now apply sum_hours_bounds | now apply sum_hours_mod4].
Qed.

Section Chronological.

Lemma string_leb_compare (a b : string) :
  (a <=? b)%string = true <-> String.compare a b <> Gt.
Proof.
  unfold String.leb. destruct (String.compare a b); split;
    intros; congruence.
Qed.

Lemma created_dates (l : list Request) :
  Forall created_request l ->
  exists ts, map date l = map strftime_Ymd ts /\ Forall two_digit_year_date ts.
Proof.
  induction 1 as [|r l [(t & Ht & Hd) _] _ (ts & Hm & Hts)].
  - now exists [].
  - exists (t :: ts). cbn [map]. rewrite Hd, Hm. split; [reflexivity|].
    now constructor.
Qed.

Lemma sorted_dates_chronological (l : list Request) :
  forall ts,
    map date l = map strftime_Ymd ts ->
    Forall two_digit_year_date ts ->
    StronglySorted date_le l ->
    StronglySorted (fun a b => date_compare a b <> Gt) ts.
Proof.
  induction l as [|r l IH]; intros [|t ts] Hm Hts Hs; try discriminate;
    [constructor|].
  cbn [map] in Hm. injection Hm as Hr Hm.
  inversion Hts as [|? ? Ht Hts']; subst.
  inversion Hs as [|? ? Hs' Hall]; subst.
  constructor; [now apply IH|].
  clear IH Hs Hs' Hts. revert ts Hm Hts'.
  induction Hall as [|x l Hx Hall IH']; intros [|u ts] Hm Hts';
    try discriminate; [constructor|].
  cbn [map] in Hm. injection Hm as Hxu Hm.
  inversion Hts' as [|? ? Hu Hts'']; subst.
  constructor; [|now apply IH'].
  rewrite <- (canonical_order t u (proj1 Ht) (proj1 Hu)).
  rewrite <- Hr, <- Hxu. now apply string_leb_compare.
Qed.

End Chronological.

(** X9. The requests of a manager reached from the default document are
    in calendar order: their date keys are the canonical forms of valid
    dates, each of which is no later (by year, then month, then day) than
    every date after it in the list. *)
Theorem reached_requests_in_calendar_order :
  forall (ops : list op) (f : file_state),
    exists ts : list datetime,
      map date (pto_requests (data (run ops (mkPTOManager default_document f))))
      = map strftime_Ymd ts
      /\ Forall two_digit_year_date ts
      /\ StronglySorted (fun a b => date_compare a b <> Gt) ts.
Proof.
  intros ops f.
  set (self := run ops (mkPTOManager default_document f)).
  assert (Hr : reached self) by now exists ops, f.
  destruct (created_dates _ (reached_created self Hr)) as (ts & Hm & Hts).
  exists ts. split; [exact Hm|]. split; [exact Hts|].
  apply (sorted_dates_chronological _ ts Hm Hts).
  apply Sorted_StronglySorted; [exact date_le_trans|].
  apply (reached_sorted self Hr).
Qed.

Section Displayed_rows.

Lemma count_date_In (r : Request) (l : list Request) :
  In r l -> (1 <= count_date (date r) l)%nat.
Proof.
  induction l as [|x l IH]; [easy|]. rewrite count_date_cons.
  intros [-> | H]; [rewrite String.eqb_refl; lia|].
  specialize (IH H). lia.
Qed.

Lemma created_display (r : Request) :
  created_request r ->
  _validate_date (_format_date_for_display (date r)) = Some (date r).
Proof.
  intros [(t & Ht & ->) _]. destruct (normalise_display t Ht) as [Hn Hd].
  now rewrite Hd.
Qed.

End Displayed_rows.

(** X10. Every row that is displayed can be acted on: in a manager reached
    from the default document, removing by the display form of the date of
    any of its requests, or editing by it with the date left as displayed,
    finds a request (the desktop front end passes the displayed date back
    to [remove_pto_request] and [edit_pto_request]). *)
Theorem displayed_date_is_found :
  forall (ops : list op) (f : file_state) (r : Request)
         (half : option bool) (note_opt : option string),
    let self := run ops (mkPTOManager default_document f) in
    let shown := _format_date_for_display (date r) in
    In r (pto_requests (data self)) ->
    snd (remove_pto_request shown self) = Removed shown
    /\ snd (edit_pto_request shown (Some shown) half note_opt self)
       = Updated shown.
Proof.
  intros ops f r half note_opt self shown Hin. subst shown.
  assert (Hr : reached self) by now exists ops, f.
  pose proof (reached_created self Hr) as Hc.
  rewrite Forall_forall in Hc. pose proof (Hc r Hin) as Hcr.
  pose proof (created_display r Hcr) as Hv.
  destruct (count_date_find _ _ (count_date_In r _ Hin)) as (i & r' & Hf).
  assert (Ht : truthy (Some (_format_date_for_display (date r))) = true).
  { destruct (_format_date_for_display (date r));
      [discriminate Hv|reflexivity]. }
  split.
  - unfold remove_pto_request. normalise Hv. now rewrite Hf.
  - unfold edit_pto_request. normalise Hv. rewrite Ht. cbv beta iota.
    rewrite (validate_truthy _ _ Hv). cbn [andb negb]. now rewrite Hf.
Qed.

Lemma displayed_date_is_found_witness :
  let self := run [Add "1-5-24" false ""]
                  (mkPTOManager default_document Missing) in
  snd (remove_pto_request "01-05-24" self) = Removed "01-05-24"
  /\ snd (edit_pto_request "01-05-24" (Some "01-05-24") (Some true) None self)
     = Updated "01-05-24".
Proof.
  intros self.
  apply (displayed_date_is_found [Add "1-5-24" false ""] Missing
           (mkRequest "2024-01-05" false 8 "") (Some true) None).
  left. reflexivity.
Defined.

(** ** The display form and the century *)

Section Century.

Lemma date_compare_Eq_year (t1 t2 : datetime) :
  date_compare t1 t2 = Eq -> year t1 = year t2.
Proof.
  unfold date_compare.
  destruct (N.compare_spec (year t1) (year t2)); try discriminate.
  auto.
Qed.

End Century.

(** X11. Normalising the display form of a canonical date gives that date
    back exactly when its year is one a two-digit year can denote, 1969 to
    2068: the display form drops the century.  A request with a date outside
    that range (it can only come from the file) cannot be looked up by the
    date it is displayed with. *)
Theorem display_then_normalise :
  forall (t : datetime),
    valid_date (year t) (month t) (day t) = true ->
    (_validate_date (_format_date_for_display (strftime_Ymd t))
     = Some (strftime_Ymd t)
     <-> (1969 <= year t <= 2068)%N).
Proof.
  intros t Hv. split.
  - unfold _format_date_for_display.
    rewrite (strptime_strftime_Ymd t Hv). intros H.
    destruct (validate_created _ _ H) as (t' & Ht' & E).
    assert (Hc : date_compare t t' = Eq).
    { rewrite <- (canonical_order t t' Hv (proj1 Ht')), E.
      now apply String_as_OT.cmp_eq. }
    apply date_compare_Eq_year in Hc. rewrite Hc. apply Ht'.
  - intros Hy. destruct (normalise_display t (conj Hv Hy)) as [Hn Hd].
    now rewrite Hd.
Qed.

Lemma display_then_normalise_witness :
  (_validate_date (_format_date_for_display "1924-01-15") = Some "1924-01-15"
   <-> (1969 <= 1924 <= 2068)%N)
  /\ _validate_date (_format_date_for_display "1924-01-15") = Some "2024-01-15".
Proof.
  split; [|reflexivity].
  apply (display_then_normalise (mkdatetime 1924 1 15)). reflexivity.
Defined.

(** ** How the operations compose *)

(** X12. Setting the allowance commutes with adding, editing and removing:
    either order gives the same manager, file included, and the other
    operation prints the same message. *)
Theorem set_yearly_commutes :
  forall (o : op) (hrs : number) (self : PTOManager),
    (forall h, o <> SetYearly h) ->
    fst (step o (fst (set_yearly_pto_hours hrs self)))
    = fst (set_yearly_pto_hours hrs (fst (step o self)))
    /\ snd (step o (fst (set_yearly_pto_hours hrs self))) = snd (step o self).
Proof.
  intros o hrs self Ho.
  destruct o as [d h n | d nd h n | d | h']; cbn [step];
    [| | |now elim (Ho h')].
  - unfold add_pto_request, set_yearly_pto_hours, _save_data.
    cbn [fst data pto_requests data_file used_pto_hours yearly_pto_hours].
    destruct (negb (truthy (_validate_date d))); [now split|].
    destruct (existsb _ _); now split.
  - unfold edit_pto_request, set_yearly_pto_hours, _save_data.
    cbn [fst data pto_requests data_file used_pto_hours yearly_pto_hours].
    destruct (negb (truthy (_validate_date d))); [now split|].
    destruct (_ && _); [now split|].
    destruct (find_date _ _) as [[i r]|]; now split.
  - unfold remove_pto_request, set_yearly_pto_hours, _save_data.
    cbn [fst data pto_requests data_file used_pto_hours yearly_pto_hours].
    destruct (negb (truthy (_validate_date d))); [now split|].
    destruct (find_date _ _) as [[i r]|]; now split.
Qed.

Lemma set_yearly_commutes_witness :
  let self := mkPTOManager default_document Missing in
  fst (step (Add "01-15-24" false "") (fst (set_yearly_pto_hours 80 self)))
  = fst (set_yearly_pto_hours 80 (fst (step (Add "01-15-24" false "") self)))
  /\ snd (step (Add "01-15-24" false "") (fst (set_yearly_pto_hours 80 self)))
     = snd (step (Add "01-15-24" false "") self).
Proof.
  intros self.
  apply (set_yearly_commutes (Add "01-15-24" false "") 80 self).
  intros h. discriminate.
Defined.

(** ** Uniqueness of the dates *)

Section Unique_dates.

Lemma NoDup_dates_sort (l : list Request) :
  NoDup (map date l) -> NoDup (map date (sort_by_date l)).
Proof.
  apply Permutation_NoDup, Permutation_map, sort_permutation.
Qed.

Lemma NoDup_dates_pop (i : nat) (l : list Request) :
  NoDup (map date l) -> NoDup (map date (pop i l)).
Proof.
  intros H. unfold pop. rewrite <- (firstn_skipn i l) in H.
  rewrite map_app in *. destruct (skipn i l) as [|x r] eqn:E.
  - replace (skipn (S i) l) with (@nil Request); [exact H|].
    symmetry. change (S i) with (1 + i)%nat. rewrite <- skipn_skipn, E.
    reflexivity.
  - replace (skipn (S i) l) with r.
    + cbn [map] in H. now apply NoDup_remove_1 in H.
    + change (S i) with (1 + i)%nat. now rewrite <- skipn_skipn, E.
Qed.

Lemma map_date_set_item (d : string) (l : list Request) (i : nat)
      (r r' : Request) :
  find_date d l = Some (i, r) -> date r' = date r ->
  map date (set_item i r' l) = map date l.
Proof.
  intros Hf Hd. destruct (find_date_split _ _ _ _ Hf) as [Hl _].
  rewrite Hl at 2. unfold set_item. rewrite !map_app. cbn [map].
  now rewrite Hd.
Qed.

Lemma apply_edit_date (half : option bool) (note_opt : option string)
      (r : Request) :
  date (apply_edit None half note_opt r) = date r.
Proof. unfold apply_edit. now destruct half, note_opt. Qed.

End Unique_dates.

(** X13. Adding, removing, setting the allowance and editing without a new
    date keep the dates unique: if no two requests have the same date
    before such an operation, no two have the same date after it. *)
Theorem dates_stay_unique :
  forall (o : op) (self : PTOManager),
    keeps_dates o = true ->
    NoDup (map date (pto_requests (data self))) ->
    NoDup (map date (pto_requests (data (fst (step o self))))).
Proof.
  intros o self Hk H.
  destruct o as [d h n | d nd h n | d | hrs]; cbn [step].
  - unfold add_pto_request.
    destruct (negb (truthy (_validate_date d))); [exact H|].
    destruct (existsb _ _) eqn:E; [exact H|].
    unfold _save_data. cbn [fst data pto_requests].
    apply NoDup_dates_sort. rewrite map_app. cbn [map date].
    apply (Permutation_NoDup (Permutation_cons_append _ _)).
    constructor; [|exact H].
    intros Hin. apply in_map_iff in Hin. destruct Hin as (r & Hr & Hin).
    assert (Et : existsb
                   (fun request =>
                      (date request
                       =? match _validate_date d with
                          | Some s => s
                          | None => ""
                          end)%string)
                   (pto_requests (data self)) = true).
    { apply existsb_exists. exists r. split; [exact Hin|].
      now apply String.eqb_eq. }
    congruence.
  - cbn [keeps_dates] in Hk. apply negb_true_iff in Hk.
    unfold edit_pto_request.
    destruct (negb (truthy (_validate_date d))); [exact H|].
    rewrite Hk. cbn [andb].
    destruct (find_date _ _) as [[i r]|] eqn:Hf; [|exact H].
    unfold _save_data. cbn [fst data pto_requests].
    apply NoDup_dates_sort.
    rewrite (map_date_set_item _ _ _ _ _ Hf (apply_edit_date h n r)).
    exact H.
  - unfold remove_pto_request.
    destruct (negb (truthy (_validate_date d))); [exact H|].
    destruct (find_date _ _) as [[i r]|] eqn:Hf; [|exact H].
    unfold _save_data. cbn [fst data pto_requests].
    now apply NoDup_dates_pop.
  - exact H.
Qed.

Lemma dates_stay_unique_witness :
  let self := mkPTOManager
                (mkDocument 80 8 [mkRequest "2024-01-15" false 8 ""]) Missing in
  NoDup (map date (pto_requests (data self)))
  /\ NoDup (map date
              (pto_requests (data (fst (step (Add "03-01-24" true "") self))))).
Proof.
  intros self.
  assert (H : NoDup (map date (pto_requests (data self)))).
  { repeat constructor. intros []. }
  split; [exact H|].
  apply (dates_stay_unique (Add "03-01-24" true "") self eq_refl H).
Defined.

(** ** Edits that leave the date alone *)

Section In_place.

(** Sorting a list that is in date order changes nothing. *)
Lemma sort_sorted_id (l : list Request) :
  sorted_by_date l -> sort_by_date l = l.
Proof.
  unfold sorted_by_date.
  induction 1 as [|a l Hs IH Hhd]; [reflexivity|].
  cbn [sort_by_date]. rewrite IH.
  destruct Hhd as [|y l' Hay]; [reflexivity|].
  cbn [insert_by_date]. unfold date_le in Hay. now rewrite Hay.
Qed.

(** Date order is a matter of the date keys only. *)
Lemma sorted_map_date (l1 : list Request) :
  forall l2, map date l1 = map date l2 ->
             sorted_by_date l1 -> sorted_by_date l2.
Proof.
  unfold sorted_by_date.
  induction l1 as [|a l1 IH]; intros [|b l2] Hm Hs; try discriminate;
    [constructor|].
  cbn [map] in Hm. injection Hm as Hab Hm.
  inversion Hs as [|? ? Hs' Hhd]; subst.
  constructor; [now apply IH|].
  destruct l1 as [|a' l1], l2 as [|b' l2]; try discriminate; constructor.
  cbn [map] in Hm. injection Hm as Hab' _.
  inversion Hhd as [|? ? Hle]; subst.
  unfold date_le in *. now rewrite <- Hab, <- Hab'.
Qed.

End In_place.

(** X14. On a list in date order, an edit that supplies no new date moves
    no request: the first request with the date is replaced where it stands
    by its edited version (half-day flag and hours, note), the used hours
    change by the difference of the hours, and when nothing at all is
    supplied the document is left as it was. *)
Theorem edit_without_new_date_in_place :
  forall (self : PTOManager) (date_str normalized_date : string)
         (new_date : option string) (half : option bool)
         (note_opt : option string),
    _validate_date date_str = Some normalized_date ->
    truthy new_date = false ->
    sorted_by_date (pto_requests (data self)) ->
    (1 <= count_date normalized_date (pto_requests (data self)))%nat ->
    let self' := fst (edit_pto_request date_str new_date half note_opt self) in
    exists (before : list Request) (r : Request) (after : list Request),
      pto_requests (data self) = (before ++ r :: after)%list
      /\ date r = normalized_date
      /\ (forall x, In x before -> date x <> normalized_date)
      /\ pto_requests (data self')
         = (before ++ apply_edit None half note_opt r :: after)%list
      /\ used_pto_hours (data self')
         = (used_pto_hours (data self) - hours r
            + hours (apply_edit None half note_opt r))%Z
      /\ (half = None -> note_opt = None -> data self' = data self).
Proof.
  intros self d n nd half note_opt Hv Hnd Hs Hc self'. subst self'.
  destruct (count_date_find _ _ Hc) as (i & r & Hf).
  destruct (find_date_split _ _ _ _ Hf) as [Hl Hd].
  exists (firstn i (pto_requests (data self))), r,
    (skipn (S i) (pto_requests (data self))).
  split; [exact Hl|]. split; [exact Hd|].
  split; [exact (find_date_first _ _ _ _ Hf)|].
  unfold edit_pto_request. normalise Hv. rewrite Hnd. cbn [andb]. rewrite Hf.
  unfold _save_data. cbn [fst data pto_requests used_pto_hours].
  assert (Hsort : sort_by_date
                    (set_item i (apply_edit None half note_opt r)
                       (pto_requests (data self)))
                  = set_item i (apply_edit None half note_opt r)
                      (pto_requests (data self))).
  { apply sort_sorted_id. apply (sorted_map_date (pto_requests (data self)));
      [|exact Hs].
    symmetry. apply (map_date_set_item _ _ _ _ _ Hf), apply_edit_date. }
  rewrite Hsort. split; [reflexivity|]. split; [reflexivity|].
  intros -> ->. cbn [apply_edit]. unfold set_item. rewrite <- Hl.
  destruct (data self) as [y u rs]. cbn. f_equal. lia.
Qed.

Lemma edit_without_new_date_in_place_witness :
  let self := mkPTOManager
                (mkDocument 80 16 [mkRequest "2024-01-15" false 8 "";
                                   mkRequest "2024-03-01" false 8 ""]) Missing in
  let self' := fst (edit_pto_request "03-01-24" None (Some true) None self) in
  exists (before : list Request) (r : Request) (after : list Request),
    pto_requests (data self) = (before ++ r :: after)%list
    /\ date r = "2024-03-01"
    /\ (forall x, In x before -> date x <> "2024-03-01")
    /\ pto_requests (data self')
       = (before ++ apply_edit None (Some true) None r :: after)%list
    /\ used_pto_hours (data self')
       = (16 - hours r + hours (apply_edit None (Some true) None r))%Z
    /\ (Some true = None -> @None string = None -> data self' = data self).
Proof.
  intros self.
  apply (edit_without_new_date_in_place self "03-01-24" "2024-03-01"
           None (Some true) None eq_refl eq_refl).
  - repeat constructor.
  - cbn. lia.
Defined.

(** ** Adding a request and removing it again *)

Section Add_remove.

Lemma insert_below_head (a : Request) (l : list Request) :
  Forall (date_le a) l -> insert_by_date a l = a :: l.
Proof.
  intros H. destruct H as [|y l Hay _]; [reflexivity|].
  cbn [insert_by_date]. unfold date_le in Hay. now rewrite Hay.
Qed.

Lemma find_date_skip (a : Request) (d : string) (l : list Request)
      (i : nat) (r : Request) :
  (date a =? d)%string = false ->
  find_date d l = Some (i, r) -> find_date d (a :: l) = Some (S i, r).
Proof. intros Ha Hf. cbn [find_date]. now rewrite Ha, Hf. Qed.

Lemma pop_cons (a : Request) (i : nat) (l : list Request) :
  pop (S i) (a :: l) = a :: pop i l.
Proof. reflexivity. Qed.

(** In the sorted list, the request appended by [add_pto_request] is the
    one the loop of [remove_pto_request] finds, and taking it out leaves
    the list that was there before. *)
Lemma sort_append_then_pop (x : Request) (l : list Request) :
  StronglySorted date_le l ->
  (forall r, In r l -> date r <> date x) ->
  exists i, find_date (date x) (sort_by_date (l ++ [x])) = Some (i, x)
            /\ pop i (sort_by_date (l ++ [x])) = l.
Proof.
  induction 1 as [|a l Hs IH Hall]; intros Hfresh.
  - exists O. cbn. now rewrite String.eqb_refl.
  - destruct IH as (i & Hf & Hp).
    { intros r Hr. apply Hfresh. now right. }
    assert (Ha : (date a =? date x)%string = false).
    { apply String.eqb_neq, Hfresh. now left. }
    cbn [List.app sort_by_date].
    destruct (sort_by_date (l ++ [x])) as [|y M] eqn:EM; [discriminate Hf|].
    cbn [insert_by_date].
    destruct (date a <=? date y)%string eqn:Ele.
    + exists (S i). split; [now apply find_date_skip|].
      now rewrite pop_cons, Hp.
    + cbn [find_date] in Hf.
      destruct (date y =? date x)%string eqn:Eyx.
      * injection Hf as <- ->. unfold pop in Hp. cbn [firstn skipn List.app] in Hp.
        subst M. exists O. rewrite (insert_below_head a l Hall).
        cbn [find_date]. rewrite String.eqb_refl. split; reflexivity.
      * exfalso. destruct (find_date (date x) M) as [[j r']|]; [|discriminate].
        injection Hf as <- ->. unfold pop in Hp.
        cbn [firstn skipn List.app] in Hp. subst l.
        inversion Hall as [|? ? Hay _]; subst. unfold date_le in Hay.
        congruence.
Qed.

End Add_remove.

(** X15. On a list in date order, adding a request for a date that no
    request has and then removing that date gives the document that was
    there before the two operations: the same allowance, used hours and
    requests in the same order. *)
Theorem add_then_remove_restores :
  forall (self : PTOManager) (date_str normalized_date : string)
         (half : bool) (note_str : string),
    _validate_date date_str = Some normalized_date ->
    sorted_by_date (pto_requests (data self)) ->
    (forall r, In r (pto_requests (data self)) -> date r <> normalized_date) ->
    let added := fst (add_pto_request date_str half note_str self) in
    snd (remove_pto_request date_str added)
    = Removed (_format_date_for_display normalized_date)
    /\ data (fst (remove_pto_request date_str added)) = data self.
Proof.
  intros self d n half note_str Hv Hs Hfresh added.
  set (hrs := (if half then 4 else 8)%Z).
  set (x := mkRequest n half hrs note_str).
  destruct (sort_append_then_pop x (pto_requests (data self))) as (i & Hf & Hp).
  { apply Sorted_StronglySorted; [exact date_le_trans|exact Hs]. }
  { exact Hfresh. }
  assert (Hadd : added
                 = _save_data
                     (mkPTOManager
                        (mkDocument (yearly_pto_hours (data self))
                           (used_pto_hours (data self) + hrs)
                           (sort_by_date (pto_requests (data self) ++ [x])))
                        (data_file self))).
  { subst added. unfold add_pto_request. normalise Hv.
    now rewrite (existsb_date_absent _ _ Hfresh). }
  rewrite Hadd. clear Hadd added.
  unfold remove_pto_request. normalise Hv.
  unfold _save_data. cbn [data pto_requests used_pto_hours yearly_pto_hours].
  change (date x) with n in Hf. rewrite Hf. cbn [fst snd data].
  split; [reflexivity|].
  rewrite Hp. destruct (data self) as [y u rs].
  cbn [yearly_pto_hours used_pto_hours pto_requests]. f_equal.
  subst x. cbn [hours]. lia.
Qed.

Lemma add_then_remove_restores_witness :
  let self := mkPTOManager
                (mkDocument 80 16 [mkRequest "2024-01-15" false 8 "";
                                   mkRequest "2024-03-01" false 8 ""]) Missing in
  let added := fst (add_pto_request "02-10-24" true "x" self) in
  snd (remove_pto_request "02-10-24" added) = Removed "02-10-24"
  /\ data (fst (remove_pto_request "02-10-24" added)) = data self.
Proof.
  intros self.
  apply (add_then_remove_restores self "02-10-24" "2024-02-10" true "x" eq_refl).
  - repeat constructor.
  - intros r [<- | [<- | []]]; discriminate.
Defined.

(** ** The read-only commands *)

Section Summary.

(** A float is the nearest float to its own value. *)
Lemma round_magnitude_exact (s : bool) (m e : Z) :
  is_binary64 (Finite s m e) = true -> (0 < m)%Z ->
  round_magnitude (magnitude m e) = (m, e).
Proof.
  intros Hv Hm. pose proof (pow2_pos e) as Hp.
  apply (round_magnitude_interior s); [exact Hv | |]; unfold magnitude.
  - split.
    + apply Qmult_lt_compat_r; [exact Hp|]. lra.
    + apply Qmult_lt_compat_r; [exact Hp|]. lra.
  - intros _ _. apply Qmult_lt_compat_r; [exact Hp|]. lra.
Qed.

(** Subtracting the [int] 0 from a float leaves the float. *)
Lemma float_sub_zero (x : float) :
  is_binary64 x = true ->
  exists y, float_of_int 0 = Some y /\ float_sub x y = x.
Proof.
  intros Hv. exists (Finite false 0 (-1074)). split; [now vm_compute|].
  destruct x as [s m e | s |]; try reflexivity.
  destruct (is_binary64_bounds s m e Hv) as (Hm & He & Hn).
  cbn [float_sub].
  assert (Ev : (value s m e - value false 0 (-1074)
                == value s m e)%Q).
  { unfold value at 2. unfold magnitude. change (inject_Z 0) with 0%Q. ring. }
  rewrite (Qcompare_comp _ _ Ev 0%Q 0%Q (Qeq_refl 0%Q)).
  pose proof (pow2_pos e) as Hp.
  destruct (Z.eqb_spec m 0) as [E0 | E0].
  - subst m. assert (e = -1074)%Z by lia. subst e.
    destruct s; reflexivity.
  - assert (Hpos : (0 < m)%Z) by lia.
    assert (Hmag : (0 < magnitude m e)%Q).
    { unfold magnitude. apply Qmult_lt_0_compat; [|exact Hp].
      change 0%Q with (inject_Z 0). rewrite <- Zlt_Qlt. exact Hpos. }
    pose proof (round_magnitude_exact s m e Hv Hpos) as Hr.
    destruct s; unfold value.
    + assert (Hlt : (- magnitude m e ?= 0)%Q = Lt)
        by (apply (proj1 (Qlt_alt _ _)); lra).
      rewrite Hlt. unfold round.
      assert (Eq : (- (value true m e - value false 0 (-1074))
                    == magnitude m e)%Q).
      { unfold value, magnitude. change (inject_Z 0) with 0%Q. ring. }
      unfold value in Eq. rewrite (round_magnitude_comp _ _ Eq), Hr.
      destruct (Z.ltb_spec 971 e); [lia|reflexivity].
    + assert (Hgt : (magnitude m e ?= 0)%Q = Gt)
        by (apply (proj1 (Qgt_alt _ _)); lra).
      rewrite Hgt. unfold round.
      unfold value in Ev. rewrite (round_magnitude_comp _ _ Ev), Hr.
      destruct (Z.ltb_spec 971 e); [lia|reflexivity].
Qed.

End Summary.

(** X16. For every manager reached from the default document, the summary
    shows the allowance as it is stored, as used hours the sum of the hours
    of the requests, and as remaining hours the allowance less that sum.
    For an [int] allowance that is the integer difference, at most the
    allowance less [4 n] with [n] requests.  With no requests the remaining
    hours are the allowance itself, float or not.  Nothing is shown only
    when the allowance is a float and the sum is too large to be converted
    to one. *)
Theorem summary_of_reached :
  forall (ops : list op) (f : file_state),
    let self := run ops (mkPTOManager default_document f) in
    let allowance := yearly_pto_hours (data self) in
    let total := sum_hours (pto_requests (data self)) in
    show_summary self
    = match number_sub allowance total with
      | Some remaining => Some (allowance, total, remaining)
      | None => None
      end
    /\ (forall z : Z,
          allowance = Int z ->
          show_summary self = Some (Int z, total, Int (z - total))
          /\ (z - total
              <= z - 4 * Z.of_nat (List.length (pto_requests (data self))))%Z)
    /\ (pto_requests (data self) = [] ->
        storable_number allowance = true ->
        show_summary self = Some (allowance, 0%Z, allowance))
    /\ (show_summary self = None
        <-> exists x, allowance = Float x /\ float_of_int total = None).
Proof.
  intros ops f self allowance total.
  assert (Hr : reached self) by now exists ops, f.
  pose proof (reached_in_sync self Hr) as Hs. unfold in_sync in Hs.
  pose proof (sum_hours_bounds _ (reached_created self Hr)) as Hb.
  fold total in Hs, Hb.
  assert (Hshow : show_summary self
                  = match number_sub allowance total with
                    | Some remaining => Some (allowance, total, remaining)
                    | None => None
                    end).
  { unfold show_summary. fold allowance. now rewrite Hs. }
  split; [exact Hshow|]. split; [|split].
  - intros z Ez. rewrite Hshow, Ez. cbn [number_sub]. split; [reflexivity|lia].
  - intros Hnil Hst. rewrite Hshow.
    assert (Et : total = 0%Z) by (unfold total; now rewrite Hnil).
    rewrite Et. destruct allowance as [z | x]; cbn [number_sub].
    + do 3 f_equal. lia.
    + destruct (float_sub_zero x Hst) as (y & -> & ->). reflexivity.
  - rewrite Hshow. destruct allowance as [z | x]; cbn [number_sub].
    + split; [discriminate|]. intros (x & E & _). discriminate E.
    + destruct (float_of_int total) as [y|]; split; try discriminate.
      * intros (x' & _ & E). discriminate E.
      * intros _. now exists x.
      * intros _. reflexivity.
Qed.

(** X17. For every manager reached from the default document, the listing
    is the single line saying there is nothing when there are no requests,
    and otherwise a title, a rule, one line for each request in the stored
    order and a rule; the line of a request starts with the [MM-DD-YY] form
    of its date, says "Half Day (4 hours)" or "Full Day (8 hours)", and ends
    with the note when there is one. *)
Theorem listing_of_reached :
  forall (ops : list op) (f : file_state),
    let self := run ops (mkPTOManager default_document f) in
    let requests := pto_requests (data self) in
    (requests = [] -> list_pto_requests self = ["No PTO requests found."])
    /\ (requests <> [] ->
        list_pto_requests self
        = (String "010" "Current PTO Requests:" :: times "=" 50
             :: map request_line requests ++ [times "=" 50])%list)
    /\ Forall
         (fun r =>
            exists t,
              date r = strftime_Ymd t
              /\ request_line r
                 = strftime_mdy t ++ " - "
                   ++ (if is_half_day r
                       then "Half Day (4 hours)" else "Full Day (8 hours)")
                   ++ (match note r with
                       | "" => ""
                       | _ => " - Note: " ++ note r
                       end))
         requests.
Proof.
  intros ops f self requests.
  assert (Hr : reached self) by now exists ops, f.
  pose proof (reached_created self Hr) as Hc. fold requests in Hc.
  unfold list_pto_requests. fold requests.
  split; [now intros ->|]. split; [now destruct requests|].
  apply (Forall_impl _ (P := created_request)); [|exact Hc].
  intros r [(t & Ht & Hd) Hh]. exists t. split; [exact Hd|].
  unfold request_line. rewrite Hd, Hh.
  rewrite (proj2 (normalise_display t Ht)).
  destruct (is_half_day r), (note r); reflexivity.
Qed.

(** ** Repeating an operation *)

(** X18. Adding the same date twice is adding it once: whatever the first
    call did, the second call with that date, with any half-day flag and
    note, returns the manager the first call returned. *)
Theorem add_twice_is_add_once :
  forall (self : PTOManager) (date_str : string)
         (half half' : bool) (note_str note_str' : string),
    fst (add_pto_request date_str half' note_str'
           (fst (add_pto_request date_str half note_str self)))
    = fst (add_pto_request date_str half note_str self).
Proof.
  intros self d half half' note_str note_str'.
  destruct (_validate_date d) as [n|] eqn:Hv.
  - pose proof (validate_truthy _ _ Hv) as Ht.
    destruct (existsb (fun request => (date request =? n)%string)
                (pto_requests (data self))) eqn:E.
    + assert (H1 : add_pto_request d half note_str self
                   = (self, DuplicateDate (_format_date_for_display n))).
      { unfold add_pto_request. now rewrite Hv, Ht, E. }
      rewrite H1. cbn [fst]. unfold add_pto_request. now rewrite Hv, Ht, E.
    + set (x := mkRequest n half (if half then 4 else 8)%Z note_str).
      assert (H1 : fst (add_pto_request d half note_str self)
                   = _save_data
                       (mkPTOManager
                          (mkDocument (yearly_pto_hours (data self))
                             (used_pto_hours (data self) + hours x)
                             (sort_by_date (pto_requests (data self) ++ [x])))
                          (data_file self))).
      { unfold add_pto_request. now rewrite Hv, Ht, E. }
      rewrite H1. unfold add_pto_request at 1. rewrite Hv, Ht. cbn [negb].
      unfold _save_data at 1. cbn [data pto_requests].
      assert (E2 : existsb (fun request => (date request =? n)%string)
                     (sort_by_date (pto_requests (data self) ++ [x])) = true).
      { apply existsb_exists. exists x. split; [|apply String.eqb_refl].
        apply (Permutation_in _ (sort_permutation _)), in_or_app.
        right. now left. }
      now rewrite E2.
  - assert (H1 : forall h m, add_pto_request d h m self = (self, InvalidDate)).
    { intros h m. unfold add_pto_request. now rewrite Hv. }
    now rewrite !H1.
Qed.

Section Remove_twice.

Lemma NoDup_dates_split (before after : list Request) (r : Request) :
  NoDup (map date (before ++ r :: after)) ->
  forall x, In x (before ++ after) -> date x <> date r.
Proof.
  rewrite map_app. cbn [map]. intros H x Hx E.
  apply NoDup_remove_2 in H. apply H. rewrite <- map_app, <- E.
  now apply in_map.
Qed.

End Remove_twice.

(** X19. When no two requests have the same date, a date that has been
    removed is gone: removing it a second time prints the not-found message
    and changes nothing. *)
Theorem remove_twice_not_found :
  forall (self : PTOManager) (date_str normalized_date : string),
    _validate_date date_str = Some normalized_date ->
    NoDup (map date (pto_requests (data self))) ->
    (1 <= count_date normalized_date (pto_requests (data self)))%nat ->
    let removed := fst (remove_pto_request date_str self) in
    remove_pto_request date_str removed
    = (removed, NotFound (_format_date_for_display normalized_date)).
Proof.
  intros self d n Hv Hnd Hc removed.
  destruct (count_date_find _ _ Hc) as (i & r & Hf).
  destruct (find_date_split _ _ _ _ Hf) as [Hl Hd].
  assert (Hrem : removed
                 = _save_data
                     (mkPTOManager
                        (mkDocument (yearly_pto_hours (data self))
                           (used_pto_hours (data self) - hours r)
                           (pop i (pto_requests (data self))))
                        (data_file self))).
  { subst removed. unfold remove_pto_request. normalise Hv. now rewrite Hf. }
  rewrite Hrem. apply (remove_absent _ d n Hv).
  unfold _save_data. cbn [data pto_requests]. unfold pop.
  rewrite Hl in Hnd. rewrite <- Hd.
  exact (NoDup_dates_split _ _ _ Hnd).
Qed.

Lemma remove_twice_not_found_witness :
  let self := mkPTOManager
                (mkDocument 80 12 [mkRequest "2024-01-15" true 4 "";
                                   mkRequest "2024-03-01" false 8 ""]) Missing in
  let removed := fst (remove_pto_request "03-01-24" self) in
  remove_pto_request "03-01-24" removed = (removed, NotFound "03-01-24").
Proof.
  intros self.
  apply (remove_twice_not_found self "03-01-24" "2024-03-01" eq_refl).
  - repeat constructor; cbn; intuition discriminate.
  - apply le_n.
Defined.

Section Moving_a_date.

Lemma NoDup_replace (a b : list string) (n1 n2 : string) :
  NoDup (a ++ n1 :: b) ->
  (In n2 (a ++ n1 :: b) -> n2 = n1) ->
  NoDup (a ++ n2 :: b).
Proof.
  intros H Hin.
  destruct (string_dec n2 n1) as [-> | Hne]; [exact H|].
  apply NoDup_remove in H. destruct H as [H Hn1].
  apply (Permutation_NoDup (Permutation_middle a b n2)).
  constructor; [|exact H].
  intros Hx. apply Hne, Hin.
  apply in_app_or in Hx. apply in_or_app.
  destruct Hx; [now left | right; now right].
Qed.

Lemma apply_edit_new_date (n : string) (half : option bool)
      (note_opt : option string) (r : Request) :
  date (apply_edit (Some n) half note_opt r) = n.
Proof. unfold apply_edit. now destruct half, note_opt. Qed.

End Moving_a_date.

(** X20. An edit onto a new date keeps the dates unique when the new date
    is free: if no two requests have the same date and the only request
    that may already have the new date is the one being edited, no two
    requests have the same date after the edit. *)
Theorem edit_onto_free_date_keeps_dates_unique :
  forall (self : PTOManager) (date_str new_date_str n1 n2 : string)
         (half : option bool) (note_opt : option string),
    _validate_date date_str = Some n1 ->
    _validate_date new_date_str = Some n2 ->
    NoDup (map date (pto_requests (data self))) ->
    (forall r, In r (pto_requests (data self)) -> date r = n2 -> n2 = n1) ->
    NoDup (map date
             (pto_requests
                (data (fst (edit_pto_request date_str (Some new_date_str)
                              half note_opt self))))).
Proof.
  intros self d d2 n1 n2 half note_opt H1 H2 Hnd Hfree.
  assert (Ht : truthy (Some d2) = true).
  { destruct d2; [discriminate H2|reflexivity]. }
  unfold edit_pto_request. normalise H1. rewrite Ht. cbv beta iota.
  normalise H2. cbn [andb].
  destruct (find_date _ _) as [[i r]|] eqn:Hf; [|exact Hnd].
  unfold _save_data. cbn [fst data pto_requests].
  apply NoDup_dates_sort.
  destruct (find_date_split _ _ _ _ Hf) as [Hl Hd].
  unfold set_item. rewrite map_app. cbn [map].
  rewrite apply_edit_new_date.
  rewrite Hl, map_app in Hnd. cbn [map] in Hnd. rewrite Hd in Hnd.
  apply (NoDup_replace _ _ n1 n2 Hnd).
  intros Hin. rewrite <- Hd in Hin.
  change (date r :: map date ?l) with (map date (r :: l)) in Hin.
  rewrite <- map_app, <- Hl in Hin.
  apply in_map_iff in Hin. destruct Hin as (x & Hx & Hin).
  now apply (Hfree x Hin).
Qed.

Lemma edit_onto_free_date_keeps_dates_unique_witness :
  let self := mkPTOManager
                (mkDocument 80 12 [mkRequest "2024-01-15" true 4 "";
                                   mkRequest "2024-03-01" false 8 ""]) Missing in
  NoDup (map date
           (pto_requests
              (data (fst (edit_pto_request "01-15-24" (Some "04-02-24")
                            None None self))))).
Proof.
  intros self.
  apply (edit_onto_free_date_keeps_dates_unique self "01-15-24" "04-02-24"
           "2024-01-15" "2024-04-02" None None eq_refl eq_refl).
  - repeat constructor; cbn; intuition discriminate.
  - intros r [<- | [<- | []]]; discriminate.
Defined.
